(** * find-port-by-pid: a shallow embedding of [src/index.ts]

    The module exports one function, [findPortByPid], which maps a process id
    to the TCP ports the process holds.  It dispatches on the host platform:
    on Windows and macOS it runs a shell command and parses its output, on
    Linux it reads [/proc/<pid>/fd] and joins the socket inodes found there
    with the rows of [/proc/net/tcp] and [/proc/net/tcp6].

    The embedding follows the source function by function.  Strings are
    [string] (sequences of 8-bit code units, read as U+0000..U+00FF), the
    inode [Set<string>] is a [gset string], arrays are lists, promises are
    values of a small writer/error monad that records every request made to
    the host. *)

From Stdlib Require Import ZArith QArith Qround Ascii String DecimalString.
From Stdlib Require DecimalPos DecimalZ.
From stdpp Require Import base decidable option list strings gmap.

#[local] Set Warnings "-clear-no-such-hyp".

Open Scope string_scope.
Open Scope list_scope.
Open Scope Z_scope.

(** ** Strings: the ECMAScript operations the source uses *)

Module JsString.

(** Code unit of a character. *)
Definition code (c : ascii) : N := N_of_ascii c.

(** [\s] of a regular expression and the characters [trim] strips:
    WhiteSpace and LineTerminator.  Within U+0000..U+00FF these are TAB,
    LF, VT, FF, CR, SPACE and NBSP. *)
Definition isWhiteSpace (c : ascii) : bool :=
  let n := code c in
  ((9 <=? n)%N && (n <=? 13)%N) || (n =? 32)%N || (n =? 160)%N.

(** [\d]: the ten ASCII digits. *)
Definition isDigit (c : ascii) : bool :=
  let n := code c in (48 <=? n)%N && (n <=? 57)%N.

(** Value of a digit of radix 16, upper or lower case. *)
Definition hexDigitValue (c : ascii) : option Z :=
  let n := code c in
  if (48 <=? n)%N && (n <=? 57)%N then Some (Z.of_N n - 48)
  else if (65 <=? n)%N && (n <=? 70)%N then Some (Z.of_N n - 55)
  else if (97 <=? n)%N && (n <=? 102)%N then Some (Z.of_N n - 87)
  else None.

Definition isEmpty (s : string) : bool :=
  match s with EmptyString => true | String _ _ => false end.

(** [s.trimStart()] *)
Fixpoint trimStart (s : string) : string :=
  match s with
  | EmptyString => EmptyString
  | String c s' => if isWhiteSpace c then trimStart s' else s
  end.

(** [s.trimEnd()] *)
Fixpoint trimEnd (s : string) : string :=
  match s with
  | EmptyString => EmptyString
  | String c s' =>
      let r := trimEnd s' in
      if isWhiteSpace c && isEmpty r then EmptyString else String c r
  end.

(** [s.trim()] *)
Definition trim (s : string) : string := trimEnd (trimStart s).

(** Puts a character in front of the first piece of a split. *)
Definition consHead (c : ascii) (pieces : list string) : list string :=
  match pieces with
  | [] => [String c EmptyString]
  | p :: ps => String c p :: ps
  end.

(** [s.split(sep)] for a one-character separator: the pieces between the
    occurrences of [sep], empty pieces included; never the empty array. *)
Fixpoint split (sep : ascii) (s : string) : list string :=
  match s with
  | EmptyString => [EmptyString]
  | String c s' =>
      if Ascii.eqb c sep then EmptyString :: split sep s'
      else consHead c (split sep s')
  end.

(** [s.split(/\s+/)]: the pieces between the maximal runs of white space.
    [inRun] tells that the previous character was white space, so that a
    run separates only once.  Leading or trailing white space leaves an
    empty first or last piece, as in ECMAScript. *)
Fixpoint splitWsFrom (inRun : bool) (s : string) : list string :=
  match s with
  | EmptyString => [EmptyString]
  | String c s' =>
      if isWhiteSpace c then
        if inRun then splitWsFrom true s'
        else EmptyString :: splitWsFrom true s'
      else consHead c (splitWsFrom false s')
  end.

Definition splitWs (s : string) : list string := splitWsFrom false s.

(** [s.includes(c)] for a one-character needle. *)
Fixpoint includes (c : ascii) (s : string) : bool :=
  match s with
  | EmptyString => false
  | String d s' => Ascii.eqb d c || includes c s'
  end.

(** [i = s.indexOf(c)] followed by [s.substring(i + 1)]: the text after the
    first occurrence of [c], [None] when [indexOf] gives [-1]. *)
Fixpoint afterFirst (c : ascii) (s : string) : option string :=
  match s with
  | EmptyString => None
  | String d s' => if Ascii.eqb d c then Some s' else afterFirst c s'
  end.

Fixpoint allDigits (s : string) : bool :=
  match s with
  | EmptyString => true
  | String c s' => isDigit c && allDigits s'
  end.

(** [/^\d+$/.test(s)] *)
Definition testDigits (s : string) : bool := negb (isEmpty s) && allDigits s.

(** [s] without the prefix [p], when it starts with it. *)
Fixpoint stripPrefix (p s : string) : option string :=
  match p, s with
  | EmptyString, _ => Some s
  | String a p', String b s' => if Ascii.eqb a b then stripPrefix p' s' else None
  | String _ _, EmptyString => None
  end.

(** [s.startsWith(p)] *)
Definition startsWith (p s : string) : bool :=
  match stripPrefix p s with Some _ => true | None => false end.

(** [s.substring(1)] *)
Definition tail (s : string) : string :=
  match s with
  | EmptyString => EmptyString
  | String _ s' => s'
  end.

(** The longest prefix of decimal digits and what follows it. *)
Fixpoint spanDigits (s : string) : string * string :=
  match s with
  | EmptyString => (EmptyString, EmptyString)
  | String c s' =>
      if isDigit c then let '(d, r) := spanDigits s' in (String c d, r)
      else (EmptyString, s)
  end.

(** The values of the longest prefix of radix-16 digits. *)
Fixpoint hexPrefix (s : string) : list Z :=
  match s with
  | EmptyString => []
  | String c s' =>
      match hexDigitValue c with
      | Some d => d :: hexPrefix s'
      | None => []
      end
  end.

(** The integer that a list of radix-16 digits denotes. *)
Definition hexValue (ds : list Z) : Z := fold_left (fun acc d => 16 * acc + d) ds 0.

End JsString.

(** ** Numbers *)

Module JsNumber.

(** A value of type [number].  [Finite q] stands for the double nearest to
    the rational [q]; the sign of zero is not kept, nothing below reads it. *)
Inductive number : Type :=
| NaN
| Infinity (negative : bool)
| Finite (q : Q).

(** [Number.isInteger(x)] *)
Definition isInteger (x : number) : bool :=
  match x with
  | Finite q => Qeq_bool (inject_Z (Qfloor q)) q
  | _ => false
  end.

(** [x <= 0] *)
Definition leZero (x : number) : bool :=
  match x with
  | NaN => false
  | Infinity negative => negative
  | Finite q => Qle_bool q 0
  end.

Definition ofZ (z : Z) : number := Finite (inject_Z z).

(** Integers of magnitude below 2^53 are doubles, and [toString] prints
    exactly their decimal digits. *)
Definition isSafeInteger (x : number) : bool :=
  match x with
  | Finite q => Qeq_bool (inject_Z (Qfloor q)) q && (Z.abs (Qfloor q) <? 2 ^ 53)
  | _ => false
  end.

(** Decimal digits of an integer, with a minus sign when negative. *)
Definition decimal (z : Z) : string := NilZero.string_of_int (Z.to_int z).

(** [parseInt(s, 16)], by the steps of ECMAScript: skip leading white
    space, read a sign, skip a [0x] or [0X] prefix, read the longest run of
    radix-16 digits; [NaN] when that run is empty. *)
Definition parseInt16 (s : string) : number :=
  let s1 := JsString.trimStart s in
  let sign := if JsString.startsWith "-" s1 then -1 else 1 in
  let s2 :=
    if JsString.startsWith "-" s1 || JsString.startsWith "+" s1
    then JsString.tail s1 else s1 in
  let s3 :=
    if JsString.startsWith "0x" s2 || JsString.startsWith "0X" s2
    then JsString.tail (JsString.tail s2) else s2 in
  match JsString.hexPrefix s3 with
  | [] => NaN
  | ds => ofZ (sign * JsString.hexValue ds)
  end.

End JsNumber.

Export JsNumber(number(..)).

(** ** The host: operating system, child processes, file system *)

(** What the callback of [child_process.exec] receives: [error] is [null]
    ([None]) or an error with its message. *)
Record ExecResult : Type := mkExecResult {
  error : option string;
  stdout : string;
  stderr : string
}.

(** A settled promise: fulfilled with a value or rejected with an [Error],
    of which only the message is kept. *)
Inductive Outcome (A : Type) : Type :=
| Fulfilled (value : A)
| Rejected (message : string).
Arguments Fulfilled {A} value.
Arguments Rejected {A} message.

(** The imports of the module ([node:os], [node:child_process], [node:fs])
    and the part of [Number.prototype.toString] that depends on the
    engine's shortest-digits printing: the text of a number that is not a
    safe integer. *)
Record Host : Type := mkHost {
  platform : string;
  exec : string -> ExecResult;
  readdir : string -> Outcome (list string);
  readlink : string -> Outcome string;
  readFile : string -> Outcome string;
  unsafeNumberToString : Q -> string
}.

(** [x.toString()] and [`${x}`] *)
Definition Number_toString (h : Host) (x : number) : string :=
  match x with
  | NaN => "NaN"
  | Infinity false => "Infinity"
  | Infinity true => "-Infinity"
  | Finite q =>
      if JsNumber.isSafeInteger x then JsNumber.decimal (Qfloor q)
      else unsafeNumberToString h q
  end.

(** A request made to the host. *)
Inductive Request : Type :=
| Exec (command : string)
| Readdir (path : string)
| Readlink (path : string)
| ReadFile (path : string).

(** ** Asynchronous code: a writer and error monad

    An [async] function is run to completion: it yields the requests it made,
    in order, and how its promise settled. *)
Definition Promise (A : Type) : Type := list Request * Outcome A.

Definition resolve {A} (a : A) : Promise A := ([], Fulfilled a).
Definition throw {A} (message : string) : Promise A := ([], Rejected message).

(** [try { x = await m } catch (err) { onError }] followed by [k x]; the
    [catch] block leaves the function (it returns or throws). *)
Definition tryAwait {A B} (m : Promise A) (onError : string -> Promise B)
    (k : A -> Promise B) : Promise B :=
  match m with
  | (t, Fulfilled a) => let '(t', r) := k a in (t ++ t', r)
  | (t, Rejected e) => let '(t', r) := onError e in (t ++ t', r)
  end.

(** [x = await m] outside a [try]: a rejection leaves the function. *)
Definition await {A B} (m : Promise A) (k : A -> Promise B) : Promise B :=
  tryAwait m throw k.

(** [try { m } catch (err) { handler }] where the [try] block is the whole
    computation [m]. *)
Definition tryCatch {A} (m : Promise A) (handler : string -> Promise A) : Promise A :=
  tryAwait m handler resolve.

Notation "x <- m ;; k" := (await m (fun x => k))
  (at level 100, m at next level, right associativity).

(** [for (const x of xs)] with an awaiting body that updates [acc]. *)
Fixpoint forOf {A S} (body : S -> A -> Promise S) (xs : list A) (acc : S) : Promise S :=
  match xs with
  | [] => resolve acc
  | x :: xs' => acc' <- body acc x ;; forOf body xs' acc'
  end.

Definition fs_readdir (h : Host) (path : string) : Promise (list string) :=
  ([Readdir path], readdir h path).
Definition fs_readlink (h : Host) (path : string) : Promise string :=
  ([Readlink path], readlink h path).
Definition fs_readFile (h : Host) (path : string) : Promise string :=
  ([ReadFile path], readFile h path).
(** [exec(command, callback)]: the promise of the callback's arguments. *)
Definition child_exec (h : Host) (command : string) : Promise ExecResult :=
  ([Exec command], Fulfilled (exec h command)).

(** ** The program *)

Import JsString.

(** [xs.includes(x)] on an array of strings. *)
Definition Array_includes (x : string) (xs : list string) : bool :=
  bool_decide (x ∈ xs).

(** [if (!ports.includes(p)) ports.push(p)] *)
Definition pushUnique (ports : list string) (p : string) : list string :=
  if Array_includes p ports then ports else ports ++ [p].

(** [Array.from(new Set(xs))]: the elements in the order of their first
    occurrence. *)
Definition Array_from_Set (xs : list string) : list string :=
  fold_left pushUnique xs [].

(** [ports.length > 0 ? ports : null] *)
Definition orNull (ports : list string) : option (list string) :=
  match ports with
  | [] => None
  | _ => Some ports
  end.

Definition newline : ascii := "010"%char.
Definition doubleQuote : string := String "034"%char EmptyString.

(** [link.match(/^socket:\[(\d+)\]$/)]: the first group of the match. *)
Definition socketMatch (link : string) : option string :=
  match stripPrefix "socket:[" link with
  | Some rest =>
      let '(digits, tail) := spanDigits rest in
      if negb (isEmpty digits) && String.eqb tail "]" then Some digits else None
  | None => None
  end.

(** The directory [`/proc/${pid}/fd`]. *)
Definition fdDir (h : Host) (pid : number) : string :=
  "/proc/" +:+ Number_toString h pid +:+ "/fd".

(** Body of the loop of [getSocketInodesForPid], with its [try]/[catch]. *)
Definition inodeOfDescriptor (h : Host) (dir : string) (inodeSet : gset string)
    (file : string) : Promise (gset string) :=
  tryCatch
    (let fullPath := dir +:+ "/" +:+ file in
     link <- fs_readlink h fullPath ;;
     match socketMatch link with
     | Some inode => resolve ({[inode]} ∪ inodeSet)
     | None => resolve inodeSet
     end)
    (fun _ => resolve inodeSet).

Definition getSocketInodesForPid (h : Host) (pid : number) : Promise (gset string) :=
  let inodeSet : gset string := ∅ in
  let dir := fdDir h pid in
  tryAwait (fs_readdir h dir)
    (fun message => throw ("Unable to read fd directory: " +:+ message))
    (fun files => forOf (inodeOfDescriptor h dir) files inodeSet).

(** Body of the loop of [getPortsFromProcNet] on the line [lines[i]]. *)
Definition portOfRow (h : Host) (inodeSet : gset string) (ports : list string)
    (rawLine : string) : list string :=
  let line := trim rawLine in
  if isEmpty line then ports
  else
    let parts := splitWs line in
    if (length parts <? 10)%nat then ports
    else
      match parts !! 9%nat with
      | Some inode =>
          if bool_decide (inode ∈ inodeSet) then
            match parts !! 1%nat with
            | Some localAddress =>
                match afterFirst ":" localAddress with
                | Some portHex =>
                    let portDec := Number_toString h (JsNumber.parseInt16 portHex) in
                    pushUnique ports portDec
                | None => ports
                end
            | None => ports
            end
          else ports
      | None => ports
      end.

Definition getPortsFromProcNet (h : Host) (filePath : string)
    (inodeSet : gset string) : Promise (list string) :=
  let ports : list string := [] in
  tryAwait (fs_readFile h filePath)
    (fun _ => resolve [])
    (fun content =>
       let lines := split newline content in
       resolve (fold_left (portOfRow h inodeSet) (drop 1 lines) ports)).

(** The command line of the Windows branch. *)
Definition win32Command (h : Host) (pid : number) : string :=
  "powershell -Command " +:+ doubleQuote
  +:+ "Get-NetTCPConnection | Where-Object { $_.OwningProcess -eq "
  +:+ Number_toString h pid
  +:+ " } | Select-Object -ExpandProperty LocalPort" +:+ doubleQuote.

(** The callback of the Windows branch. *)
Definition win32Callback (r : ExecResult) : Promise (option (list string)) :=
  match error r with
  | Some message => throw (if isEmpty (stderr r) then message else stderr r)
  | None =>
      let trimmed := trim (stdout r) in
      if isEmpty trimmed then resolve None
      else
        let ports :=
          List.filter (fun line => negb (isEmpty line))
            (map trim (split newline trimmed)) in
        resolve (orNull ports)
  end.

(** The command line of the macOS branch. *)
Definition darwinCommand (h : Host) (pid : number) : string :=
  "lsof -i -P -n | grep -w " +:+ Number_toString h pid.

(** Body of the inner loop of the macOS branch, on one token of a line. *)
Definition darwinPart (ports : list string) (part : string) : list string :=
  if includes ":" part then
    match last (split ":" part) with
    | Some maybePort =>
        if negb (isEmpty maybePort) && testDigits maybePort
           && negb (Array_includes maybePort ports)
        then ports ++ [maybePort]
        else ports
    | None => ports
    end
  else ports.

(** Body of the outer loop of the macOS branch, on one line. *)
Definition darwinLine (ports : list string) (line : string) : list string :=
  fold_left darwinPart (splitWs line) ports.

(** The callback of the macOS branch. *)
Definition darwinCallback (r : ExecResult) : Promise (option (list string)) :=
  match error r with
  | Some _ => resolve None
  | None =>
      let trimmed := trim (stdout r) in
      if isEmpty trimmed then resolve None
      else
        let lines := split newline trimmed in
        resolve (orNull (fold_left darwinLine lines []))
  end.

(** The Linux branch: the body of its [try] and the [catch] that rethrows. *)
Definition linuxBranch (h : Host) (pid : number) : Promise (option (list string)) :=
  tryCatch
    (inodeSet <- getSocketInodesForPid h pid ;;
     if (size inodeSet =? 0)%nat then resolve None
     else
       tcpPorts <- getPortsFromProcNet h "/proc/net/tcp" inodeSet ;;
       tcp6Ports <- getPortsFromProcNet h "/proc/net/tcp6" inodeSet ;;
       let allPorts := Array_from_Set (tcpPorts ++ tcp6Ports) in
       resolve (orNull allPorts))
    (fun message => throw ("Error reading Linux network info: " +:+ message)).

Definition findPortByPid (h : Host) (pid : number) : Promise (option (list string)) :=
  if negb (JsNumber.isInteger pid) || JsNumber.leZero pid then throw "Invalid PID"
  else
    let currentPlatform := platform h in
    if String.eqb currentPlatform "win32" then
      r <- child_exec h (win32Command h pid) ;; win32Callback r
    else if String.eqb currentPlatform "darwin" then
      r <- child_exec h (darwinCommand h pid) ;; darwinCallback r
    else if String.eqb currentPlatform "linux" then linuxBranch h pid
    else throw ("Unsupported platform: " +:+ currentPlatform).

(** ** Vocabulary of the statements *)

(** A pid that passes the guard of [findPortByPid]. *)
Definition validPid (pid : number) : Prop :=
  JsNumber.isInteger pid = true ∧ JsNumber.leZero pid = false.

(** A number that is a positive integer. *)
Definition positiveInteger (pid : number) : Prop :=
  ∃ z : Z, 0 < z ∧ ∃ q : Q, pid = Finite q ∧ (q == inject_Z z)%Q.

(** How the promise settled, and the requests made until then. *)
Definition outcome {A} (m : Promise A) : Outcome A := m.2.
Definition requests {A} (m : Promise A) : list Request := m.1.

(** [P] holds of the value of a fulfilled promise. *)
Definition onFulfilled {A} (P : A → Prop) (m : Promise A) : Prop :=
  match outcome m with
  | Fulfilled a => P a
  | Rejected _ => True
  end.

(** The fields of a data row: a line that is not blank and has at least ten
    white-space separated fields. *)
Definition rowFields (rawLine : string) : option (list string) :=
  let line := trim rawLine in
  if isEmpty line then None
  else
    let parts := splitWs line in
    if (length parts <? 10)%nat then None else Some parts.

(** The data rows of a table: those of the lines after the header line. *)
Definition dataRows (content : string) : list (list string) :=
  omap rowFields (drop 1 (split newline content)).

(** The rows of a table that may be missing. *)
Definition tableRows (file : Outcome string) : list (list string) :=
  match file with
  | Fulfilled content => dataRows content
  | Rejected _ => []
  end.

(** The inode field (index 9) of the row is in the set. *)
Definition rowMatches (inodeSet : gset string) (fields : list string) : bool :=
  match fields !! 9%nat with
  | Some inode => bool_decide (inode ∈ inodeSet)
  | None => false
  end.

(** The port of a local address, as the loop of [getPortsFromProcNet]
    computes it; [None] when the address has no colon. *)
Definition decodePort (h : Host) (localAddress : string) : option string :=
  match afterFirst ":" localAddress with
  | Some portHex => Some (Number_toString h (JsNumber.parseInt16 portHex))
  | None => None
  end.

(** The port of a row: that of its local-address field (index 1). *)
Definition rowPort (h : Host) (fields : list string) : option string :=
  match fields !! 1%nat with
  | Some localAddress => decodePort h localAddress
  | None => None
  end.

(** The ports of the matching rows, in the order of the rows. *)
Definition matchingPorts (h : Host) (inodeSet : gset string)
    (rows : list (list string)) : list string :=
  omap (rowPort h) (List.filter (rowMatches inodeSet) rows).

(** What one line contributes. *)
Definition lineView (h : Host) (inodeSet : gset string) (rawLine : string) : option string :=
  match rowFields rawLine with
  | Some fields => if rowMatches inodeSet fields then rowPort h fields else None
  | None => None
  end.

(** The inode that a descriptor contributes: its link must resolve and have
    the form [socket:[<digits>]]. *)
Definition descriptorInode (h : Host) (dir file : string) : option string :=
  match readlink h (dir +:+ "/" +:+ file) with
  | Fulfilled link => socketMatch link
  | Rejected _ => None
  end.

Definition procNetTcp : string := "/proc/net/tcp".
Definition procNetTcp6 : string := "/proc/net/tcp6".

(** The rows of both tables, IPv4 first. *)
Definition allRows (h : Host) : list (list string) :=
  tableRows (readFile h procNetTcp) ++ tableRows (readFile h procNetTcp6).

(** The array that the macOS branch builds from the output of the lister. *)
Definition darwinPorts (out : string) : list string :=
  fold_left darwinLine (split newline (trim out)) [].

(** [p] is what follows the last occurrence of [sep] in [s]. *)
Definition afterLast (sep : ascii) (s p : string) : Prop :=
  ∃ pre : string, s = pre +:+ String sep p ∧ includes sep p = false.

(** What one token of a line of the lister contributes. *)
Definition partView (part : string) : option string :=
  if includes ":" part then
    match last (split ":" part) with
    | Some maybePort => if testDigits maybePort then Some maybePort else None
    | None => None
    end
  else None.

(** The tokens of all lines of the output of the lister. *)
Definition darwinTokens (out : string) : list string :=
  concat (map splitWs (split newline (trim out))).

(** A text of radix-16 digits, at least one. *)
Fixpoint allHex (s : string) : bool :=
  match s with
  | EmptyString => true
  | String c s' => bool_decide (is_Some (hexDigitValue c)) && allHex s'
  end.

Definition hexText (s : string) : bool := negb (isEmpty s) && allHex s.

(** The integer that a text denotes in base 16: each digit weighs 16 to the
    number of digits after it. *)
Fixpoint base16 (s : string) : Z :=
  match s with
  | EmptyString => 0
  | String c s' =>
      default 0 (hexDigitValue c) * 16 ^ Z.of_nat (String.length s') + base16 s'
  end.

(** A text that is the decimal writing of an integer of [0, 65535]. *)
Definition denotesPort (s : string) : Prop :=
  ∃ n : Z, 0 ≤ n ≤ 65535 ∧ s = JsNumber.decimal n.

(** A text of white space only. *)
Fixpoint blank (s : string) : bool :=
  match s with
  | EmptyString => true
  | String c s' => isWhiteSpace c && blank s'
  end.

(** The character of a digit of radix 16, in upper case as the kernel
    prints the addresses of [/proc/net/tcp]. *)
Definition hexDigitChar (d : Z) : ascii :=
  ascii_of_N (Z.to_N (if d <? 10 then 48 + d else 55 + d)).

(** A port printed by the kernel: four digits of radix 16. *)
Definition hex4 (n : Z) : string :=
  String (hexDigitChar (n / 4096 mod 16))
    (String (hexDigitChar (n / 256 mod 16))
       (String (hexDigitChar (n / 16 mod 16))
          (String (hexDigitChar (n mod 16)) EmptyString))).

(** The request that resolves a descriptor of a directory. *)
Definition readlinkOf (dir file : string) : Request :=
  Readlink (dir +:+ "/" +:+ file).

(** The local-address field (index 1) of the row has the form of the
    tables, an address, one colon and the port text [hex]: hexadecimal
    digits, of a safe integer as those of every port are. *)
Definition hasPortText (fields : list string) (hex : string) : Prop :=
  ∃ ip, fields !! 1%nat = Some (ip +:+ String ":" hex)
    ∧ includes ":" ip = false ∧ hexText hex = true ∧ base16 hex < 2 ^ 53.

(** The port that a port text denotes: its value in base 16, written in
    decimal. *)
Definition portOfText (hex : string) : string := JsNumber.decimal (base16 hex).

(** ** Hosts to run the program on *)

Module Examples.

Definition lf : string := String newline EmptyString.
Definition crlf : string := String "013"%char lf.

Definition pid42 : number := JsNumber.ofZ 42.

Definition noExec (command : string) : ExecResult := mkExecResult None "" "".
Definition noEntry {A} (path : string) : Outcome A := Rejected "ENOENT".
(** The pids and ports of the examples are safe integers, so this text is
    never printed. *)
Definition noDigits (q : Q) : string := "".

(** A table of [/proc/net/tcp]: a header and three rows, two of the socket
    12345 on port 8080 and one of the socket 999 on port 22. *)
Definition tcpTable : string :=
  "  sl  local_address rem_address   st tx_queue rx_queue tr tm->when retrnsmt   uid  timeout inode" +:+ lf
  +:+ "   0: 0100007F:1F90 00000000:0000 0A 00000000:00000000 00:00000000 00000000  1000        0 12345 1 0000000000000000 100 0 0 10 0" +:+ lf
  +:+ "   1: 00000000:0016 00000000:0000 0A 00000000:00000000 00:00000000 00000000     0        0 999 1 0000000000000000 100 0 0 10 0" +:+ lf
  +:+ "   2: 0100007F:1F90 0100007F:D431 01 00000000:00000000 00:00000000 00000000  1000        0 12345 1 0000000000000000 100 0 0 10 0" +:+ lf.

Definition row8080 : string :=
  "   0: 0100007F:1F90 00000000:0000 0A 00000000:00000000 00:00000000 00000000  1000        0 12345 1 0000000000000000 100 0 0 10 0".

(** A table with a local address whose port text has five digits. *)
Definition wideTable : string :=
  "  sl  local_address rem_address   st tx_queue rx_queue tr tm->when retrnsmt   uid  timeout inode" +:+ lf
  +:+ "   0: 0100007F:FFFFF 00000000:0000 0A 00000000:00000000 00:00000000 00000000  1000        0 12345 1 0000000000000000 100 0 0 10 0" +:+ lf.

(** The process 42 has the descriptors 0 (a file), 3 (the socket 12345) and
    4 (which cannot be resolved); there is no [/proc/net/tcp6]. *)
Definition linuxFs (table : string) : Host := {|
  platform := "linux";
  exec := noExec;
  readdir := λ path,
    if String.eqb path "/proc/42/fd" then Fulfilled ["0"; "3"; "4"]
    else Rejected "ENOENT: no such file or directory";
  readlink := λ path,
    if String.eqb path "/proc/42/fd/0" then Fulfilled "/dev/null"
    else if String.eqb path "/proc/42/fd/3" then Fulfilled "socket:[12345]"
    else Rejected "EACCES: permission denied";
  readFile := λ path,
    if String.eqb path "/proc/net/tcp" then Fulfilled table
    else Rejected "ENOENT: no such file or directory";
  unsafeNumberToString := noDigits
|}.

Definition linuxHost : Host := linuxFs tcpTable.
Definition wideHost : Host := linuxFs wideTable.

(** A Linux host on which the process 42 does not exist. *)
Definition goneHost : Host := {|
  platform := "linux";
  exec := noExec;
  readdir := noEntry;
  readlink := noEntry;
  readFile := noEntry;
  unsafeNumberToString := noDigits
|}.

Definition shellHost (os : string) (result : ExecResult) : Host := {|
  platform := os;
  exec := λ _, result;
  readdir := noEntry;
  readlink := noEntry;
  readFile := noEntry;
  unsafeNumberToString := noDigits
|}.

(** macOS: the lister printed one line. *)
Definition darwinHost : Host :=
  shellHost "darwin"
    (mkExecResult None ("node 42 user 23u IPv4 0x1 0t0 TCP 127.0.0.1:3000 (LISTEN)" +:+ lf) "").

(** macOS: the pipeline found no line and ended with status 1. *)
Definition darwinFailed : Host :=
  shellHost "darwin" (mkExecResult (Some "Command failed: lsof -i -P -n | grep -w 42") "" "").

(** Windows: the query could not be run. *)
Definition win32Failed : Host :=
  shellHost "win32" (mkExecResult (Some "Command failed") "" "Access is denied.").

(** Windows: the process listens on port 3000 on two addresses, so the
    query prints the port twice. *)
Definition win32Twice : Host :=
  shellHost "win32" (mkExecResult None ("3000" +:+ crlf +:+ "3000" +:+ crlf) "").

(** A host of an operating system that the module does not know. *)
Definition freebsdHost : Host := shellHost "freebsd" (mkExecResult None "" "").

(** Linux: the process 7 has two descriptors, none of a socket. *)
Definition idleHost : Host := {|
  platform := "linux";
  exec := noExec;
  readdir := λ path,
    if String.eqb path "/proc/7/fd" then Fulfilled ["0"; "1"]
    else Rejected "ENOENT: no such file or directory";
  readlink := λ path,
    if String.eqb path "/proc/7/fd/0" then Fulfilled "/dev/null"
    else if String.eqb path "/proc/7/fd/1" then Fulfilled "pipe:[4242]"
    else Rejected "ENOENT: no such file or directory";
  readFile := λ path,
    if String.eqb path "/proc/net/tcp" then Fulfilled tcpTable
    else Rejected "ENOENT: no such file or directory";
  unsafeNumberToString := noDigits
|}.

Definition pid7 : number := JsNumber.ofZ 7.

(** macOS: the process listens on port 3000 on two addresses. *)
Definition darwinDual : Host :=
  shellHost "darwin"
    (mkExecResult None
       ("node 42 user 23u IPv4 0x1 0t0 TCP 127.0.0.1:3000 (LISTEN)" +:+ lf
        +:+ "node 42 user 24u IPv6 0x2 0t0 TCP [::1]:3000 (LISTEN)" +:+ lf) "").

(** Windows: the query printed nothing but line ends. *)
Definition win32Blank : Host :=
  shellHost "win32" (mkExecResult None (crlf +:+ crlf) "").

(** A row of the socket 12345 and its variants with another local address. *)
Definition rowWith (localAddress : string) : string :=
  "   0: " +:+ localAddress
  +:+ " 00000000:0000 0A 00000000:00000000 00:00000000 00000000  1000        0 12345 1 0000000000000000 100 0 0 10 0".

(** Both tables exist; the socket 12345 is on port 8080 in the first and on
    the ports 8080 and 443 in the second. *)
Definition dualHost : Host := {|
  platform := "linux";
  exec := noExec;
  readdir := readdir linuxHost;
  readlink := readlink linuxHost;
  readFile := λ path,
    if String.eqb path "/proc/net/tcp" then Fulfilled tcpTable
    else if String.eqb path "/proc/net/tcp6" then
      Fulfilled ("  sl  local_address" +:+ lf
                 +:+ rowWith "00000000000000000000000000000000:1F90" +:+ lf
                 +:+ rowWith "00000000000000000000000000000000:01BB" +:+ lf)
    else Rejected "ENOENT: no such file or directory";
  unsafeNumberToString := noDigits
|}.

(** The header line of [tcpTable] and the lines below it. *)
Definition tcpHeader : string :=
  "  sl  local_address rem_address   st tx_queue rx_queue tr tm->when retrnsmt   uid  timeout inode".
Definition tcpBody : string :=
  "   0: 0100007F:1F90 00000000:0000 0A 00000000:00000000 00:00000000 00000000  1000        0 12345 1 0000000000000000 100 0 0 10 0" +:+ lf
  +:+ "   1: 00000000:0016 00000000:0000 0A 00000000:00000000 00:00000000 00000000     0        0 999 1 0000000000000000 100 0 0 10 0" +:+ lf
  +:+ "   2: 0100007F:1F90 0100007F:D431 01 00000000:00000000 00:00000000 00000000  1000        0 12345 1 0000000000000000 100 0 0 10 0" +:+ lf.

(** A table with three rows: the socket 12345 on the ports 8080 and 443, and
    between them the socket 999 on port 22. *)
Definition joinTable : string :=
  tcpHeader +:+ lf
  +:+ rowWith "0100007F:1F90" +:+ lf
  +:+ "   1: 00000000:0016 00000000:0000 0A 00000000:00000000 00:00000000 00000000     0        0 999 1 0000000000000000 100 0 0 10 0" +:+ lf
  +:+ rowWith "00000000:01BB" +:+ lf.

Definition joinHost : Host := linuxFs joinTable.

End Examples.
(** ** The monad *)

Section Monad.
Context {A B : Type}.

Lemma tryAwait_fulfilled (t : list Request) (a : A)
    (onError : string → Promise B) (k : A → Promise B) :
  tryAwait (t, Fulfilled a) onError k = (t ++ requests (k a), outcome (k a)).
Proof. unfold tryAwait. by destruct (k a). Qed.

Lemma tryAwait_rejected (t : list Request) (e : string)
    (onError : string → Promise B) (k : A → Promise B) :
  tryAwait (t, @Rejected A e) onError k
  = (t ++ requests (onError e), outcome (onError e)).
Proof. unfold tryAwait. by destruct (onError e). Qed.

Lemma onFulfilled_resolve (P : A → Prop) (a : A) : P a → onFulfilled P (resolve a).
Proof. done. Qed.

Lemma onFulfilled_throw (P : A → Prop) (e : string) : onFulfilled P (throw e).
Proof. done. Qed.

Lemma onFulfilled_tryAwait (P : B → Prop) (m : Promise A)
    (onError : string → Promise B) (k : A → Promise B) :
  (∀ e, onFulfilled P (onError e)) →
  (∀ a, onFulfilled P (k a)) →
  onFulfilled P (tryAwait m onError k).
Proof.
  intros He Hk. destruct m as [t [a|e]].
  - rewrite tryAwait_fulfilled. apply Hk.
  - rewrite tryAwait_rejected. apply He.
Qed.
End Monad.

Lemma onFulfilled_tryCatch {A} (P : A → Prop) (m : Promise A)
    (handler : string → Promise A) :
  onFulfilled P m → (∀ e, onFulfilled P (handler e)) →
  onFulfilled P (tryCatch m handler).
Proof.
  intros Hm He. unfold tryCatch. destruct m as [t [a|e]].
  - rewrite tryAwait_fulfilled. exact Hm.
  - rewrite tryAwait_rejected. apply He.
Qed.

(** ** The guard and the dispatch *)

Lemma positiveInteger_valid (pid : number) : positiveInteger pid ↔ validPid pid.
Proof.
  unfold positiveInteger, validPid. split.
  - intros (z & Hz & q & -> & Hq). simpl. split.
    + apply Qeq_bool_iff. rewrite (Qfloor_comp _ _ Hq), Qfloor_Z.
      symmetry. exact Hq.
    + destruct (Qle_bool q 0) eqn:E; [|done].
      apply Qle_bool_iff in E.
      assert (inject_Z z <= inject_Z 0)%Q as E'.
      { eapply Qle_trans; [|exact E]. apply Qle_lteq. right. symmetry. exact Hq. }
      rewrite <- Zle_Qle in E'. lia.
  - intros [Hi Hl]. destruct pid as [| |q]; simpl in *; try done.
    apply Qeq_bool_iff in Hi. exists (Qfloor q). split.
    + destruct (Z_lt_le_dec 0 (Qfloor q)) as [|Hle]; [done|].
      assert (Qle_bool q 0 = true); [|congruence].
      apply Qle_bool_iff. eapply Qle_trans.
      * apply Qle_lteq. right. symmetry. exact Hi.
      * change 0%Q with (inject_Z 0). by rewrite <- Zle_Qle.
    + exists q. split; [done|]. symmetry. exact Hi.
Qed.

Lemma findPortByPid_invalid (h : Host) (pid : number) :
  ¬ validPid pid → findPortByPid h pid = ([], Rejected "Invalid PID").
Proof.
  unfold validPid, findPortByPid. intros Hn.
  destruct (JsNumber.isInteger pid), (JsNumber.leZero pid); simpl; try done.
  exfalso. by apply Hn.
Qed.

Lemma findPortByPid_valid (h : Host) (pid : number) :
  validPid pid →
  findPortByPid h pid =
    if String.eqb (platform h) "win32" then
      r <- child_exec h (win32Command h pid) ;; win32Callback r
    else if String.eqb (platform h) "darwin" then
      r <- child_exec h (darwinCommand h pid) ;; darwinCallback r
    else if String.eqb (platform h) "linux" then linuxBranch h pid
    else throw ("Unsupported platform: " +:+ platform h).
Proof. intros [Hi Hl]. unfold findPortByPid. by rewrite Hi, Hl. Qed.

Lemma findPortByPid_win32 (h : Host) (pid : number) :
  validPid pid → platform h = "win32" →
  findPortByPid h pid =
    ([Exec (win32Command h pid)] ++ requests (win32Callback (exec h (win32Command h pid))),
     outcome (win32Callback (exec h (win32Command h pid)))).
Proof.
  intros Hv Hp. rewrite findPortByPid_valid, Hp by done.
  rewrite String.eqb_refl. unfold await, child_exec. by rewrite tryAwait_fulfilled.
Qed.

Lemma findPortByPid_darwin (h : Host) (pid : number) :
  validPid pid → platform h = "darwin" →
  findPortByPid h pid =
    ([Exec (darwinCommand h pid)] ++ requests (darwinCallback (exec h (darwinCommand h pid))),
     outcome (darwinCallback (exec h (darwinCommand h pid)))).
Proof.
  intros Hv Hp. rewrite findPortByPid_valid, Hp by done.
  change (String.eqb "darwin" "win32") with false. rewrite String.eqb_refl.
  unfold await, child_exec. by rewrite tryAwait_fulfilled.
Qed.

Lemma findPortByPid_linux (h : Host) (pid : number) :
  validPid pid → platform h = "linux" → findPortByPid h pid = linuxBranch h pid.
Proof. intros Hv Hp. rewrite findPortByPid_valid, Hp by done. done. Qed.

Lemma orNull_nonempty (ports : list string) : orNull ports ≠ Some [].
Proof. by destruct ports. Qed.

Lemma orNull_Some (ports l : list string) : orNull ports = Some l → l = ports ∧ ports ≠ [].
Proof. destruct ports; simpl; [done|]. by intros [= <-]. Qed.

(** ** Arrays without duplicates *)

Lemma pushUnique_elem (ports : list string) (p x : string) :
  x ∈ pushUnique ports p ↔ x ∈ ports ∨ x = p.
Proof.
  unfold pushUnique, Array_includes. case_bool_decide.
  - split; [auto|]. intros [?| ->]; done.
  - rewrite elem_of_app, list_elem_of_singleton. done.
Qed.

Lemma pushUnique_NoDup (ports : list string) (p : string) :
  NoDup ports → NoDup (pushUnique ports p).
Proof.
  intros Hnd. unfold pushUnique, Array_includes. case_bool_decide; [done|].
  apply NoDup_app. split_and!; [done| |apply NoDup_singleton].
  intros x Hx ->%list_elem_of_singleton. done.
Qed.

Lemma pushUnique_fresh (ports : list string) (p : string) :
  p ∉ ports → pushUnique ports p = ports ++ [p].
Proof. intros Hp. unfold pushUnique, Array_includes. by rewrite bool_decide_eq_false_2. Qed.

Lemma fold_pushUnique_elem (xs acc : list string) (x : string) :
  x ∈ fold_left pushUnique xs acc ↔ x ∈ acc ∨ x ∈ xs.
Proof.
  revert acc. induction xs as [|y xs IH]; intros acc; simpl.
  - rewrite elem_of_nil. tauto.
  - rewrite IH, pushUnique_elem, elem_of_cons. tauto.
Qed.

Lemma fold_pushUnique_NoDup (xs acc : list string) :
  NoDup acc → NoDup (fold_left pushUnique xs acc).
Proof.
  revert acc. induction xs as [|y xs IH]; intros acc Hnd; simpl; [done|].
  by apply IH, pushUnique_NoDup.
Qed.

Lemma fold_pushUnique_distinct (xs acc : list string) :
  NoDup (acc ++ xs) → fold_left pushUnique xs acc = acc ++ xs.
Proof.
  revert acc. induction xs as [|y xs IH]; intros acc Hnd; simpl.
  - by rewrite app_nil_r.
  - rewrite pushUnique_fresh.
    + rewrite IH; rewrite <- app_assoc; done.
    + apply NoDup_app in Hnd as (_ & Hd & _). intros Hy. apply (Hd y Hy). left.
Qed.

Lemma Array_from_Set_elem (xs : list string) (x : string) :
  x ∈ Array_from_Set xs ↔ x ∈ xs.
Proof. unfold Array_from_Set. rewrite fold_pushUnique_elem, elem_of_nil. tauto. Qed.

Lemma Array_from_Set_NoDup (xs : list string) : NoDup (Array_from_Set xs).
Proof. apply fold_pushUnique_NoDup, NoDup_nil_2. Qed.

Lemma Array_from_Set_distinct (xs : list string) : NoDup xs → Array_from_Set xs = xs.
Proof. intros Hnd. unfold Array_from_Set. by rewrite fold_pushUnique_distinct. Qed.

(** A loop that pushes, without duplicates, what a partial function finds
    in each element is a deduplication of the found values. *)
Lemma fold_left_view {X} (step : list string → X → list string)
    (view : X → option string) (xs : list X) (acc : list string) :
  (∀ ports x, step ports x = from_option (pushUnique ports) ports (view x)) →
  fold_left step xs acc = fold_left pushUnique (omap view xs) acc.
Proof.
  intros Hstep. revert acc. induction xs as [|x xs IH]; intros acc; simpl; [done|].
  rewrite Hstep, IH. by destruct (view x).
Qed.

(** ** The Linux branch *)

(** *** Rows of a connection table *)

Lemma portOfRow_view (h : Host) (inodeSet : gset string) (ports : list string)
    (rawLine : string) :
  portOfRow h inodeSet ports rawLine
  = from_option (pushUnique ports) ports (lineView h inodeSet rawLine).
Proof.
  unfold portOfRow, lineView, rowFields, rowMatches, rowPort, decodePort.
  destruct (isEmpty (trim rawLine)); [done|].
  destruct (length (splitWs (trim rawLine)) <? 10)%nat; [done|].
  destruct (splitWs (trim rawLine) !! 9%nat) as [inode|]; [|done].
  destruct (bool_decide (inode ∈ inodeSet)); [|done].
  destruct (splitWs (trim rawLine) !! 1%nat) as [localAddress|]; [|done].
  by destruct (afterFirst ":" localAddress).
Qed.

Lemma omap_lineView (h : Host) (inodeSet : gset string) (lines : list string) :
  omap (lineView h inodeSet) lines
  = matchingPorts h inodeSet (omap rowFields lines).
Proof.
  unfold matchingPorts. induction lines as [|l lines IH]; [done|].
  simpl. unfold lineView at 1. destruct (rowFields l) as [fields|]; [|exact IH].
  simpl. destruct (rowMatches inodeSet fields); [|exact IH].
  simpl. destruct (rowPort h fields); [f_equal|]; exact IH.
Qed.

(** The array that the loop of [getPortsFromProcNet] leaves. *)
Lemma scan_table (h : Host) (inodeSet : gset string) (content : string) :
  fold_left (portOfRow h inodeSet) (drop 1 (split newline content)) []
  = Array_from_Set (matchingPorts h inodeSet (dataRows content)).
Proof.
  rewrite (fold_left_view _ (lineView h inodeSet)) by apply portOfRow_view.
  by rewrite omap_lineView.
Qed.

Lemma getPortsFromProcNet_eq (h : Host) (filePath : string) (inodeSet : gset string) :
  getPortsFromProcNet h filePath inodeSet
  = ([ReadFile filePath],
     Fulfilled (Array_from_Set (matchingPorts h inodeSet (tableRows (readFile h filePath))))).
Proof.
  unfold getPortsFromProcNet, fs_readFile.
  destruct (readFile h filePath) as [content|e].
  - rewrite tryAwait_fulfilled. simpl. by rewrite scan_table.
  - by rewrite tryAwait_rejected.
Qed.

(** *** Socket inodes of the process *)

Lemma inodeOfDescriptor_eq (h : Host) (dir : string) (inodeSet : gset string)
    (file : string) :
  inodeOfDescriptor h dir inodeSet file
  = ([Readlink (dir +:+ "/" +:+ file)],
     Fulfilled (from_option (λ inode, {[inode]} ∪ inodeSet) inodeSet
                  (descriptorInode h dir file))).
Proof.
  unfold inodeOfDescriptor, descriptorInode, tryCatch, await, fs_readlink.
  destruct (readlink h (dir +:+ "/" +:+ file)) as [link|e].
  - rewrite tryAwait_fulfilled. by destruct (socketMatch link).
  - by rewrite tryAwait_rejected.
Qed.

Lemma forOf_descriptors (h : Host) (dir : string) (files : list string)
    (inodeSet : gset string) :
  forOf (inodeOfDescriptor h dir) files inodeSet
  = (map (λ file, Readlink (dir +:+ "/" +:+ file)) files,
     Fulfilled (list_to_set (omap (descriptorInode h dir) files) ∪ inodeSet)).
Proof.
  revert inodeSet. induction files as [|file files IH]; intros inodeSet; simpl.
  - unfold resolve. f_equal. f_equal. set_solver.
  - rewrite inodeOfDescriptor_eq. unfold await. rewrite tryAwait_fulfilled, IH.
    simpl. f_equal. f_equal. destruct (descriptorInode h dir file); simpl; set_solver.
Qed.

Lemma getSocketInodesForPid_eq (h : Host) (pid : number) :
  getSocketInodesForPid h pid =
    match readdir h (fdDir h pid) with
    | Fulfilled files =>
        (Readdir (fdDir h pid)
           :: map (λ file, Readlink (fdDir h pid +:+ "/" +:+ file)) files,
         Fulfilled (list_to_set (omap (descriptorInode h (fdDir h pid)) files)))
    | Rejected e =>
        ([Readdir (fdDir h pid)], Rejected ("Unable to read fd directory: " +:+ e))
    end.
Proof.
  unfold getSocketInodesForPid, fs_readdir.
  destruct (readdir h (fdDir h pid)) as [files|e].
  - rewrite tryAwait_fulfilled, forOf_descriptors. simpl. f_equal. f_equal. set_solver.
  - by rewrite tryAwait_rejected.
Qed.

(** *** The join *)

Lemma linuxBranch_eq (h : Host) (pid : number) (t : list Request) (inodeSet : gset string) :
  getSocketInodesForPid h pid = (t, Fulfilled inodeSet) →
  linuxBranch h pid =
    if (size inodeSet =? 0)%nat then (t, Fulfilled None)
    else
      (t ++ [ReadFile procNetTcp; ReadFile procNetTcp6],
       Fulfilled (orNull (Array_from_Set
         (Array_from_Set (matchingPorts h inodeSet (tableRows (readFile h procNetTcp)))
          ++ Array_from_Set (matchingPorts h inodeSet (tableRows (readFile h procNetTcp6))))))).
Proof.
  intros Hs. unfold linuxBranch, tryCatch, await. rewrite Hs.
  rewrite tryAwait_fulfilled. destruct (size inodeSet =? 0)%nat; simpl.
  - by rewrite !app_nil_r.
  - rewrite !getPortsFromProcNet_eq, !tryAwait_fulfilled. simpl.
    rewrite ?tryAwait_fulfilled. simpl. by rewrite ?app_nil_r.
Qed.

Lemma linuxBranch_rejected (h : Host) (pid : number) (t : list Request) (e : string) :
  getSocketInodesForPid h pid = (t, Rejected e) →
  linuxBranch h pid = (t, Rejected ("Error reading Linux network info: " +:+ e)).
Proof.
  intros Hs. unfold linuxBranch, tryCatch, await. rewrite Hs.
  rewrite !tryAwait_rejected. simpl. by rewrite !app_nil_r.
Qed.


Lemma linuxBranch_fulfilled (h : Host) (pid : number) (files : list string) :
  readdir h (fdDir h pid) = Fulfilled files →
  ∃ result, outcome (linuxBranch h pid) = Fulfilled result.
Proof.
  intros Hd. pose proof (getSocketInodesForPid_eq h pid) as Hs. rewrite Hd in Hs.
  rewrite (linuxBranch_eq _ _ _ _ Hs). destruct (size _ =? 0)%nat; eauto.
Qed.

(** ** The claims *)

(** *** Input validation *)

(** C9. A pid that is not a positive integer (zero, negative, fractional,
    [NaN] or infinite) makes [findPortByPid] reject with the error
    [Invalid PID], on every host, whatever its platform, and without any
    request to the host: no command is run, no directory or file is read. *)
Theorem invalid_pid_rejected (h : Host) (pid : number) :
  ¬ positiveInteger pid →
  findPortByPid h pid = ([], Rejected "Invalid PID").
Proof.
  intros Hn. apply findPortByPid_invalid. by rewrite <- positiveInteger_valid.
Qed.

Lemma invalid_pid_rejected_witness :
  findPortByPid Examples.linuxHost (Finite (-3 # 1)) = ([], Rejected "Invalid PID")
  ∧ findPortByPid Examples.darwinHost (Finite (1 # 2)) = ([], Rejected "Invalid PID")
  ∧ findPortByPid Examples.win32Twice NaN = ([], Rejected "Invalid PID").
Proof.
  split_and!; apply invalid_pid_rejected.
  - intros (z & Hz & q & [= <-] & Hq). unfold Qeq in Hq. simpl in Hq. lia.
  - intros (z & Hz & q & [= <-] & Hq). unfold Qeq in Hq. simpl in Hq. lia.
  - intros (z & Hz & q & [=] & Hq).
Defined.

(** *** Failure of the command *)

(** C8. When the command ends with an error, the macOS branch resolves to
    [null], whereas the Windows branch rejects with an error whose message is
    the diagnostic text: the error stream of the command or, when that is
    empty, the message of the error. *)
Theorem lister_failure_policy (h : Host) (pid : number) :
  validPid pid →
  (platform h = "darwin" →
   ∀ message, error (exec h (darwinCommand h pid)) = Some message →
   findPortByPid h pid = ([Exec (darwinCommand h pid)], Fulfilled None))
  ∧ (platform h = "win32" →
     ∀ message, error (exec h (win32Command h pid)) = Some message →
     findPortByPid h pid
     = ([Exec (win32Command h pid)],
        Rejected (if isEmpty (stderr (exec h (win32Command h pid)))
                  then message else stderr (exec h (win32Command h pid))))).
Proof.
  intros Hv. split; intros Hp message He.
  - rewrite findPortByPid_darwin by done. unfold darwinCallback. by rewrite He.
  - rewrite findPortByPid_win32 by done. unfold win32Callback. by rewrite He.
Qed.

Lemma validPid_42 : validPid Examples.pid42.
Proof. by split. Qed.

Lemma lister_failure_policy_witness :
  findPortByPid Examples.darwinFailed Examples.pid42
  = ([Exec "lsof -i -P -n | grep -w 42"], Fulfilled None)
  ∧ outcome (findPortByPid Examples.win32Failed Examples.pid42)
    = Rejected "Access is denied.".
Proof.
  split.
  - exact (proj1 (lister_failure_policy Examples.darwinFailed Examples.pid42 validPid_42)
             eq_refl _ eq_refl).
  - exact (f_equal outcome
             (proj2 (lister_failure_policy Examples.win32Failed Examples.pid42 validPid_42)
                eq_refl _ eq_refl)).
Defined.

(** *** Shape of the result *)

Lemma win32Callback_shape (r : ExecResult) :
  onFulfilled (λ result, result ≠ Some []) (win32Callback r).
Proof.
  unfold win32Callback. destruct (error r); [done|].
  destruct (isEmpty _); [done|]. apply orNull_nonempty.
Qed.

Lemma darwinCallback_shape (r : ExecResult) :
  onFulfilled (λ result, result ≠ Some []) (darwinCallback r).
Proof.
  unfold darwinCallback. destruct (error r); [done|].
  destruct (isEmpty _); [done|]. apply orNull_nonempty.
Qed.

Lemma linuxBranch_shape (h : Host) (pid : number) :
  onFulfilled (λ result, result ≠ Some []) (linuxBranch h pid).
Proof.
  unfold linuxBranch. apply onFulfilled_tryCatch; [|done].
  apply onFulfilled_tryAwait; [done|].
  intros inodeSet. destruct (size inodeSet =? 0)%nat; [done|].
  apply onFulfilled_tryAwait; [done|]. intros tcpPorts.
  apply onFulfilled_tryAwait; [done|]. intros tcp6Ports.
  apply orNull_nonempty.
Qed.

Lemma findPortByPid_shape (h : Host) (pid : number) :
  onFulfilled (λ result, result ≠ Some []) (findPortByPid h pid).
Proof.
  unfold findPortByPid. destruct (_ || _); [done|].
  destruct (String.eqb _ "win32").
  { apply onFulfilled_tryAwait; [done|]. apply win32Callback_shape. }
  destruct (String.eqb _ "darwin").
  { apply onFulfilled_tryAwait; [done|]. apply darwinCallback_shape. }
  destruct (String.eqb _ "linux"); [apply linuxBranch_shape|done].
Qed.

(** C10. On every platform, a call that succeeds returns [null] or an array
    with at least one port: never the empty array. *)
Theorem result_never_empty_array (h : Host) (pid : number) (ports : list string) :
  outcome (findPortByPid h pid) = Fulfilled (Some ports) → ports ≠ [].
Proof.
  intros Ho. pose proof (findPortByPid_shape h pid) as Hs.
  unfold onFulfilled in Hs. rewrite Ho in Hs. congruence.
Qed.

Lemma result_never_empty_array_witness :
  outcome (findPortByPid Examples.linuxHost Examples.pid42) = Fulfilled (Some ["8080"])
  ∧ ["8080"] ≠ [].
Proof.
  assert (outcome (findPortByPid Examples.linuxHost Examples.pid42)
          = Fulfilled (Some ["8080"])) as Ho by (vm_compute; reflexivity).
  split; [exact Ho|]. exact (result_never_empty_array _ _ _ Ho).
Defined.

(** *** Errors of the Linux branch *)

Lemma stripPrefix_Some (p s r : string) : stripPrefix p s = Some r ↔ s = p +:+ r.
Proof.
  revert s. induction p as [|a p IH]; intros s; simpl.
  - split; [by intros [= ->]|by intros ->].
  - destruct s as [|b s]; [done|]. destruct (Ascii.eqb_spec a b) as [->|Hne].
    + rewrite IH. split; [by intros ->|by intros [= ->]].
    + split; [done|]. by intros [= -> _].
Qed.

Lemma spanDigits_closing (digits : string) :
  allDigits digits = true → spanDigits (digits +:+ "]") = (digits, "]").
Proof.
  induction digits as [|c digits IH]; simpl; [done|].
  intros [-> Hd]%andb_true_iff. by rewrite IH.
Qed.

Lemma spanDigits_app (s digits rest : string) :
  spanDigits s = (digits, rest) → s = digits +:+ rest ∧ allDigits digits = true.
Proof.
  revert digits rest. induction s as [|c s IH]; intros digits rest; simpl.
  - by intros [= <- <-].
  - destruct (isDigit c) eqn:Hc.
    + destruct (spanDigits s) as [d r]. intros [= <- <-].
      destruct (IH d r eq_refl) as [-> Hd]. simpl. by rewrite Hc.
    + by intros [= <- <-].
Qed.

(** The regular expression [/^socket:\[(\d+)\]$/]: a link matches when it is
    [socket:[], a non-empty run of digits and []], and the group is that run. *)
Lemma socketMatch_Some (link inode : string) :
  socketMatch link = Some inode
  ↔ link = "socket:[" +:+ inode +:+ "]" ∧ testDigits inode = true.
Proof.
  unfold socketMatch, testDigits. split.
  - destruct (stripPrefix "socket:[" link) as [rest|] eqn:Hp; [|done].
    apply stripPrefix_Some in Hp as ->.
    destruct (spanDigits rest) as [digits tail] eqn:Hs.
    apply spanDigits_app in Hs as [-> Hd].
    destruct (isEmpty digits) eqn:He; [done|]. simpl.
    destruct (String.eqb_spec tail "]") as [->|]; [|done].
    intros [= <-]. by rewrite He, Hd.
  - intros [-> [Hne Hd]%andb_true_iff].
    rewrite (proj2 (stripPrefix_Some "socket:[" _ (inode +:+ "]")) eq_refl).
    rewrite spanDigits_closing by done. by rewrite Hne.
Qed.

Lemma elem_of_descriptorInodes (h : Host) (dir : string) (files : list string)
    (inode : string) :
  inode ∈ (list_to_set (omap (descriptorInode h dir) files) : gset string)
  ↔ ∃ file, file ∈ files
      ∧ readlink h (dir +:+ "/" +:+ file) = Fulfilled ("socket:[" +:+ inode +:+ "]")
      ∧ testDigits inode = true.
Proof.
  rewrite elem_of_list_to_set, list_elem_of_omap. unfold descriptorInode. split.
  - intros (file & Hin & Hd).
    destruct (readlink h (dir +:+ "/" +:+ file)) as [link|e] eqn:Hl; [|done].
    apply socketMatch_Some in Hd as [-> Hd]. by exists file.
  - intros (file & Hin & Hl & Hd). exists file. rewrite Hl. split; [done|].
    by apply socketMatch_Some.
Qed.

(** C6. On Linux, when the descriptor directory of the process cannot be
    listed, the call rejects with the error of the listing, propagated under
    two prefixes, after that one request.  When it can be listed, the call is
    not aborted: it is fulfilled whatever the links of the descriptors do,
    every descriptor is asked for its link, and the inode set holds exactly
    the inodes of the descriptors whose link resolved to [socket:[<inode>]]
    with a non-empty run of digits as inode; a descriptor whose link cannot
    be resolved adds nothing and takes nothing away. *)
Theorem linux_error_split (h : Host) (pid : number) :
  validPid pid → platform h = "linux" →
  (∀ e, readdir h (fdDir h pid) = Rejected e →
     findPortByPid h pid
     = ([Readdir (fdDir h pid)],
        Rejected ("Error reading Linux network info: Unable to read fd directory: " +:+ e)))
  ∧ (∀ files, readdir h (fdDir h pid) = Fulfilled files →
       (∃ result, outcome (findPortByPid h pid) = Fulfilled result)
       ∧ ∃ inodeSet : gset string,
           getSocketInodesForPid h pid
           = (Readdir (fdDir h pid)
                :: map (λ file, Readlink (fdDir h pid +:+ "/" +:+ file)) files,
              Fulfilled inodeSet)
           ∧ (∀ inode, inode ∈ inodeSet ↔
                ∃ file, file ∈ files
                  ∧ readlink h (fdDir h pid +:+ "/" +:+ file)
                    = Fulfilled ("socket:[" +:+ inode +:+ "]")
                  ∧ testDigits inode = true)
           ∧ (∀ before file after e, files = before ++ file :: after →
                readlink h (fdDir h pid +:+ "/" +:+ file) = Rejected e →
                inodeSet
                = list_to_set (omap (descriptorInode h (fdDir h pid)) (before ++ after)))).
Proof.
  intros Hv Hp. rewrite findPortByPid_linux by done. split.
  - intros e Hd. apply linuxBranch_rejected.
    by rewrite getSocketInodesForPid_eq, Hd.
  - intros files Hd. split; [by eapply linuxBranch_fulfilled|].
    eexists. rewrite getSocketInodesForPid_eq, Hd. split_and!; [done| |].
    + apply elem_of_descriptorInodes.
    + intros before file after e -> Hl. rewrite !omap_app. simpl.
      unfold descriptorInode at 2. by rewrite Hl.
Qed.

Lemma linux_error_split_witness :
  outcome (findPortByPid Examples.goneHost Examples.pid42)
  = Rejected "Error reading Linux network info: Unable to read fd directory: ENOENT"
  ∧ ∃ result, outcome (findPortByPid Examples.linuxHost Examples.pid42) = Fulfilled result.
Proof.
  split.
  - exact (f_equal outcome
             (proj1 (linux_error_split Examples.goneHost Examples.pid42 validPid_42 eq_refl)
                _ eq_refl)).
  - exact (proj1 (proj2 (linux_error_split Examples.linuxHost Examples.pid42
                           validPid_42 eq_refl) _ eq_refl)).
Defined.

(** *** A missing connection table *)

(** C7. When a connection-table file cannot be read, [getPortsFromProcNet]
    is fulfilled with the empty array after the one read, whatever the inode
    set.  In the Linux branch the call then returns what the other table
    alone gives: with [/proc/net/tcp6] missing the ports of [/proc/net/tcp],
    and the other way round. *)
Theorem missing_table_is_empty (h : Host) (inodeSet : gset string) :
  (∀ filePath e, readFile h filePath = Rejected e →
     getPortsFromProcNet h filePath inodeSet = ([ReadFile filePath], Fulfilled []))
  ∧ (∀ pid t, validPid pid → platform h = "linux" →
       getSocketInodesForPid h pid = (t, Fulfilled inodeSet) → size inodeSet ≠ 0%nat →
       (∀ e, readFile h procNetTcp6 = Rejected e →
          ∀ tcpPorts, outcome (getPortsFromProcNet h procNetTcp inodeSet) = Fulfilled tcpPorts →
          outcome (findPortByPid h pid) = Fulfilled (orNull tcpPorts))
       ∧ (∀ e, readFile h procNetTcp = Rejected e →
          ∀ tcp6Ports, outcome (getPortsFromProcNet h procNetTcp6 inodeSet) = Fulfilled tcp6Ports →
          outcome (findPortByPid h pid) = Fulfilled (orNull tcp6Ports))).
Proof.
  split.
  - intros filePath e Hf. by rewrite getPortsFromProcNet_eq, Hf.
  - intros pid t Hv Hp Hs Hsize. rewrite findPortByPid_linux by done.
    rewrite (linuxBranch_eq _ _ _ _ Hs).
    destruct (Nat.eqb_spec (size inodeSet) 0) as [|_]; [done|].
    split; intros e Hf ports; rewrite getPortsFromProcNet_eq; intros [= <-];
      rewrite Hf; unfold outcome; simpl; do 2 f_equal.
    + rewrite app_nil_r. apply Array_from_Set_distinct, Array_from_Set_NoDup.
    + apply Array_from_Set_distinct, Array_from_Set_NoDup.
Qed.

Lemma missing_table_is_empty_witness :
  getPortsFromProcNet Examples.linuxHost procNetTcp6 {[ "12345" ]}
  = ([ReadFile procNetTcp6], Fulfilled [])
  ∧ outcome (findPortByPid Examples.linuxHost Examples.pid42) = Fulfilled (Some ["8080"]).
Proof.
  split.
  - exact (proj1 (missing_table_is_empty Examples.linuxHost {[ "12345" ]})
             procNetTcp6 "ENOENT: no such file or directory" eq_refl).
  - refine (proj1 (proj2 (missing_table_is_empty Examples.linuxHost {[ "12345" ]})
                     Examples.pid42 _ validPid_42 eq_refl _ _)
              "ENOENT: no such file or directory" eq_refl ["8080"] _).
    + vm_compute. reflexivity.
    + vm_compute. discriminate.
    + vm_compute. reflexivity.
Defined.

(** *** Decoding of the port *)

(** Case analysis on the 256 characters. *)
Ltac each_ascii c := destruct c as [[] [] [] [] [] [] [] []]; vm_compute; try done.

Lemma hexDigit_not_space (c : ascii) : is_Some (hexDigitValue c) → isWhiteSpace c = false.
Proof. intros [d Hd]. revert Hd. each_ascii c. Qed.

Lemma hexDigit_not_sign (c : ascii) :
  is_Some (hexDigitValue c) → Ascii.eqb "-" c = false ∧ Ascii.eqb "+" c = false.
Proof. intros [d Hd]. revert Hd. each_ascii c. Qed.

Lemma hexDigit_not_x (c : ascii) :
  is_Some (hexDigitValue c) → Ascii.eqb "x" c = false ∧ Ascii.eqb "X" c = false.
Proof. intros [d Hd]. revert Hd. each_ascii c. Qed.

Lemma hexDigit_range (c : ascii) (d : Z) : hexDigitValue c = Some d → 0 ≤ d ≤ 15.
Proof.
  intros Hd. destruct c as [[] [] [] [] [] [] [] []]; vm_compute in Hd;
    first [discriminate | injection Hd as <-; lia].
Qed.

Lemma allHex_cons (c : ascii) (s : string) :
  allHex (String c s) = true ↔ is_Some (hexDigitValue c) ∧ allHex s = true.
Proof. simpl. rewrite andb_true_iff, bool_decide_eq_true. done. Qed.

(** On a text of radix-16 digits the scan of [parseInt] reads all of it. *)
Lemma hexValue_from (s : string) (acc : Z) :
  allHex s = true →
  fold_left (λ a d, 16 * a + d) (hexPrefix s) acc
  = acc * 16 ^ Z.of_nat (String.length s) + base16 s.
Proof.
  revert acc. induction s as [|c s IH]; intros acc Hs.
  - simpl. lia.
  - apply allHex_cons in Hs as [[d Hd] Hs].
    cbn [hexPrefix base16 String.length]. rewrite Hd. cbn [fold_left default].
    rewrite IH by done. rewrite Nat2Z.inj_succ, Z.pow_succ_r by lia.
    unfold id. ring.
Qed.

Lemma hexValue_base16 (s : string) :
  allHex s = true → hexValue (hexPrefix s) = base16 s.
Proof. intros Hs. unfold hexValue. rewrite hexValue_from by done. lia. Qed.

Lemma base16_bound (s : string) :
  allHex s = true → 0 ≤ base16 s < 16 ^ Z.of_nat (String.length s).
Proof.
  induction s as [|c s IH]; intros Hs.
  - simpl. lia.
  - apply allHex_cons in Hs as [[d Hd] Hs]. specialize (IH Hs).
    cbn [base16 String.length]. rewrite Hd. cbn [default]. unfold id.
    apply hexDigit_range in Hd.
    rewrite Nat2Z.inj_succ, Z.pow_succ_r by lia. nia.
Qed.

Lemma startsWith_cons (a c : ascii) (p s : string) :
  startsWith (String a p) (String c s) = Ascii.eqb a c && startsWith p s.
Proof. unfold startsWith. cbn [stripPrefix]. by destruct (Ascii.eqb a c). Qed.

Lemma startsWith_char (a c : ascii) (s : string) :
  startsWith (String a EmptyString) (String c s) = Ascii.eqb a c.
Proof. rewrite startsWith_cons. unfold startsWith. cbn [stripPrefix]. apply andb_true_r. Qed.

Lemma parseInt16_hexText (s : string) :
  hexText s = true → JsNumber.parseInt16 s = JsNumber.ofZ (base16 s).
Proof.
  unfold hexText. destruct s as [|c s]; [done|]. simpl negb. rewrite andb_true_l.
  intros Hs. pose proof Hs as Hall. apply allHex_cons in Hs as [Hc Hs].
  unfold JsNumber.parseInt16.
  assert (trimStart (String c s) = String c s) as ->.
  { cbn [trimStart]. by rewrite hexDigit_not_space. }
  destruct (hexDigit_not_sign c Hc) as [Hm Hp].
  rewrite !startsWith_char, Hm, Hp. cbn [orb].
  assert (startsWith "0x" (String c s) = false ∧ startsWith "0X" (String c s) = false)
    as [-> ->].
  { rewrite !startsWith_cons. destruct (Ascii.eqb "0" c); [|done].
    destruct s as [|c' s]; [done|]. apply allHex_cons in Hs as [Hc' _].
    destruct (hexDigit_not_x c' Hc') as [Hx HX].
    by rewrite !startsWith_char, Hx, HX. }
  cbn [orb]. rewrite <- (hexValue_base16 _ Hall).
  destruct Hc as [d Hd]. cbn [hexPrefix]. rewrite Hd.
  f_equal. destruct (hexValue _); done.
Qed.

Lemma Number_toString_safe (h : Host) (z : Z) :
  Z.abs z < 2 ^ 53 → Number_toString h (JsNumber.ofZ z) = JsNumber.decimal z.
Proof.
  intros Hz. unfold Number_toString, JsNumber.ofZ, JsNumber.isSafeInteger.
  rewrite Qfloor_Z. rewrite (proj2 (Qeq_bool_iff _ _) (Qeq_refl _)).
  by rewrite (proj2 (Z.ltb_lt _ _) Hz).
Qed.

Lemma afterFirst_app (sep : ascii) (pre rest : string) :
  includes sep pre = false → afterFirst sep (pre +:+ String sep rest) = Some rest.
Proof.
  induction pre as [|c pre IH]; simpl.
  - by rewrite Ascii.eqb_refl.
  - intros [Hc Hpre]%orb_false_iff. rewrite Hc. by apply IH.
Qed.

Lemma decodePort_hex (h : Host) (ip hex : string) :
  includes ":" ip = false → hexText hex = true → base16 hex < 2 ^ 53 →
  decodePort h (ip +:+ String ":" hex) = Some (JsNumber.decimal (base16 hex)).
Proof.
  intros Hip Hhex Hlt. unfold decodePort. rewrite afterFirst_app by done.
  rewrite parseInt16_hexText by done. rewrite Number_toString_safe; [done|].
  apply andb_true_iff in Hhex as [_ Hall]. pose proof (base16_bound _ Hall). lia.
Qed.

Lemma portOfRow_matching (h : Host) (inodeSet : gset string) (ports : list string)
    (rawLine : string) (fields : list string) (inode : string) :
  rowFields rawLine = Some fields → fields !! 9%nat = Some inode → inode ∈ inodeSet →
  portOfRow h inodeSet ports rawLine
  = from_option (pushUnique ports) ports (rowPort h fields).
Proof.
  intros Hf Hi Hin. rewrite portOfRow_view. unfold lineView, rowMatches.
  by rewrite Hf, Hi, bool_decide_eq_true_2.
Qed.

(** C2. In a row whose inode is in the set, when the local-address field is
    an address, a colon and a port text of hexadecimal digits (whose value
    is a safe integer, which every port is), the loop of
    [getPortsFromProcNet] pushes the decimal writing of the base-16 value of
    that text; the local address [0100007F:1F90] gives ["8080"] and
    [0100007F:0016] gives ["22"]. *)
Theorem hex_port_decoding (h : Host) (inodeSet : gset string) (ports : list string)
    (rawLine : string) (fields : list string) (inode : string) :
  rowFields rawLine = Some fields → fields !! 9%nat = Some inode → inode ∈ inodeSet →
  (∀ ip hex, fields !! 1%nat = Some (ip +:+ String ":" hex) →
     includes ":" ip = false → hexText hex = true → base16 hex < 2 ^ 53 →
     portOfRow h inodeSet ports rawLine
     = pushUnique ports (JsNumber.decimal (base16 hex)))
  ∧ (fields !! 1%nat = Some "0100007F:1F90" →
     portOfRow h inodeSet ports rawLine = pushUnique ports "8080")
  ∧ (fields !! 1%nat = Some "0100007F:0016" →
     portOfRow h inodeSet ports rawLine = pushUnique ports "22").
Proof.
  intros Hf Hi Hin. rewrite (portOfRow_matching _ _ _ _ _ _ Hf Hi Hin).
  assert (∀ ip hex, fields !! 1%nat = Some (ip +:+ String ":" hex) →
     includes ":" ip = false → hexText hex = true → base16 hex < 2 ^ 53 →
     from_option (pushUnique ports) ports (rowPort h fields)
     = pushUnique ports (JsNumber.decimal (base16 hex))) as Hgen.
  { intros ip hex Hla Hip Hhex Hlt. unfold rowPort. rewrite Hla.
    by rewrite decodePort_hex. }
  split_and!; [exact Hgen| |].
  - intros Hla. by apply (Hgen "0100007F" "1F90").
  - intros Hla. by apply (Hgen "0100007F" "0016").
Qed.

Lemma hex_port_decoding_witness :
  portOfRow Examples.linuxHost {[ "12345" ]} [] Examples.row8080 = ["8080"].
Proof.
  refine (proj1 (proj2 (hex_port_decoding Examples.linuxHost {[ "12345" ]} []
            Examples.row8080 _ "12345" _ _ _)) _).
  - vm_compute. reflexivity.
  - reflexivity.
  - by apply elem_of_singleton.
  - reflexivity.
Defined.

(** ** The macOS branch *)

Lemma split_nonempty (sep : ascii) (s : string) : split sep s ≠ [].
Proof.
  destruct s as [|c s]; simpl; [done|].
  destruct (Ascii.eqb c sep); [done|]. by destruct (split sep s).
Qed.

Lemma split_without (sep : ascii) (s : string) :
  includes sep s = false → split sep s = [s].
Proof.
  induction s as [|c s IH]; simpl; [done|].
  intros [Hc Hs]%orb_false_iff. rewrite Hc, IH by done. done.
Qed.

Lemma consHead_app (c : ascii) (pieces rest : list string) :
  pieces ≠ [] → consHead c (pieces ++ rest) = consHead c pieces ++ rest.
Proof. by destruct pieces. Qed.

(** The last piece of a split is what follows the last separator. *)
Lemma split_snoc (sep : ascii) (pre p : string) :
  includes sep p = false →
  split sep (pre +:+ String sep p) = split sep pre ++ [p].
Proof.
  intros Hp. induction pre as [|c pre IH]; simpl.
  - by rewrite Ascii.eqb_refl, split_without.
  - rewrite IH. destruct (Ascii.eqb c sep); [done|].
    apply consHead_app, split_nonempty.
Qed.

Lemma includes_app (sep : ascii) (pre p : string) :
  includes sep (pre +:+ String sep p) = true.
Proof.
  induction pre as [|c pre IH]; simpl.
  - by rewrite Ascii.eqb_refl.
  - rewrite IH. apply orb_true_r.
Qed.

Lemma includes_afterLast (sep : ascii) (s : string) :
  includes sep s = true → ∃ p, afterLast sep s p.
Proof.
  induction s as [|c s IH]; simpl; [done|].
  destruct (includes sep s) eqn:Hs.
  - intros _. destruct (IH eq_refl) as (p & pre & -> & Hp).
    exists p, (String c pre). done.
  - rewrite orb_false_r. intros ->%Ascii.eqb_eq. exists s, EmptyString. done.
Qed.

Lemma last_split (sep : ascii) (s p : string) :
  includes sep s = true → (last (split sep s) = Some p ↔ afterLast sep s p).
Proof.
  intros Hs. split.
  - intros Hl. destruct (includes_afterLast _ _ Hs) as (p' & pre & -> & Hp').
    rewrite split_snoc, last_snoc in Hl by done. injection Hl as <-.
    by exists pre.
  - intros (pre & -> & Hp). by rewrite split_snoc, last_snoc.
Qed.

(** What a token contributes: the digits after its last colon. *)
Lemma partView_Some (part p : string) :
  partView part = Some p ↔ afterLast ":" part p ∧ testDigits p = true.
Proof.
  unfold partView. destruct (includes ":" part) eqn:Hc.
  - rewrite <- last_split by done.
    destruct (last (split ":" part)) as [q|]; [|by split; [|intros []]].
    destruct (testDigits q) eqn:Hq; split.
    + by intros [= <-].
    + by intros [[= <-] _].
    + done.
    + intros [[= <-] Hp]. congruence.
  - split; [done|]. intros [(pre & -> & _) _]. by rewrite includes_app in Hc.
Qed.

Lemma darwinPart_view (ports : list string) (part : string) :
  darwinPart ports part = from_option (pushUnique ports) ports (partView part).
Proof.
  unfold darwinPart, partView, pushUnique. destruct (includes ":" part); [|done].
  destruct (last (split ":" part)) as [q|]; [|done].
  unfold testDigits. destruct (isEmpty q); [done|]. simpl.
  destruct (allDigits q); [|done]. simpl. by destruct (Array_includes q ports).
Qed.

Lemma fold_left_concat {X Y} (f : Y → X → Y) (xss : list (list X)) (acc : Y) :
  fold_left (λ a xs, fold_left f xs a) xss acc = fold_left f (concat xss) acc.
Proof.
  revert acc. induction xss as [|xs xss IH]; intros acc; simpl; [done|].
  by rewrite IH, fold_left_app.
Qed.


Lemma darwinPorts_eq (out : string) :
  darwinPorts out = Array_from_Set (omap partView (darwinTokens out)).
Proof.
  unfold darwinPorts, darwinTokens, Array_from_Set.
  rewrite <- (fold_left_view darwinPart partView) by apply darwinPart_view.
  rewrite <- fold_left_concat.
  generalize (@nil string). induction (split newline (trim out)) as [|l ls IH]; [done|].
  intros acc. simpl. apply IH.
Qed.

Lemma darwinCallback_eq (out err : string) :
  darwinCallback (mkExecResult None out err) = resolve (orNull (darwinPorts out)).
Proof.
  unfold darwinCallback, darwinPorts. simpl.
  destruct (trim out) as [|c s]; done.
Qed.


(** ** The join of the Linux branch *)

Lemma fold_pushUnique_push (c acc : list string) (y : string) :
  fold_left pushUnique (pushUnique c y) acc = pushUnique (fold_left pushUnique c acc) y.
Proof.
  destruct (decide (y ∈ c)) as [Hy|Hy].
  - unfold pushUnique, Array_includes. rewrite !bool_decide_eq_true_2; [done| |done].
    apply fold_pushUnique_elem. by right.
  - rewrite (pushUnique_fresh c) by done. by rewrite fold_left_app.
Qed.

Lemma fold_pushUnique_fold (b c acc : list string) :
  fold_left pushUnique (fold_left pushUnique b c) acc
  = fold_left pushUnique b (fold_left pushUnique c acc).
Proof.
  revert c. induction b as [|y b IH]; intros c; simpl; [done|].
  by rewrite IH, fold_pushUnique_push.
Qed.

(** Deduplicating two deduplicated arrays put end to end deduplicates the
    whole. *)
Lemma Array_from_Set_app (a b : list string) :
  Array_from_Set (Array_from_Set a ++ Array_from_Set b) = Array_from_Set (a ++ b).
Proof.
  unfold Array_from_Set. rewrite !fold_left_app, !fold_pushUnique_fold. done.
Qed.

Lemma matchingPorts_app (h : Host) (inodeSet : gset string) (a b : list (list string)) :
  matchingPorts h inodeSet (a ++ b)
  = matchingPorts h inodeSet a ++ matchingPorts h inodeSet b.
Proof. unfold matchingPorts. by rewrite List.filter_app, omap_app. Qed.

Lemma elem_of_matchingPorts (h : Host) (inodeSet : gset string)
    (rows : list (list string)) (p : string) :
  p ∈ matchingPorts h inodeSet rows
  ↔ ∃ fields, fields ∈ rows ∧ rowMatches inodeSet fields = true ∧ rowPort h fields = Some p.
Proof.
  unfold matchingPorts. rewrite list_elem_of_omap. split.
  - intros (fields & Hin & Hp). apply list_elem_of_In, filter_In in Hin as [Hin Hm].
    exists fields. by rewrite list_elem_of_In.
  - intros (fields & Hin & Hm & Hp). exists fields. split; [|done].
    apply list_elem_of_In, filter_In. by rewrite <- list_elem_of_In.
Qed.

Lemma rowMatches_empty (inodeSet : gset string) (fields : list string) :
  size inodeSet = 0%nat → rowMatches inodeSet fields = false.
Proof.
  intros ->%size_empty_inv%leibniz_equiv. unfold rowMatches.
  destruct (fields !! 9%nat); [|done]. by apply bool_decide_eq_false_2.
Qed.

Lemma matchingPorts_empty (h : Host) (inodeSet : gset string) (rows : list (list string)) :
  size inodeSet = 0%nat → matchingPorts h inodeSet rows = [].
Proof.
  intros Hs. unfold matchingPorts. induction rows as [|fields rows IH]; [done|].
  simpl. by rewrite rowMatches_empty.
Qed.

(** What the Linux branch returns, from the inode set of the process. *)
Lemma linuxBranch_outcome (h : Host) (pid : number) (t : list Request)
    (inodeSet : gset string) :
  getSocketInodesForPid h pid = (t, Fulfilled inodeSet) →
  outcome (linuxBranch h pid)
  = Fulfilled (orNull (Array_from_Set (matchingPorts h inodeSet (allRows h)))).
Proof.
  intros Hs. rewrite (linuxBranch_eq _ _ _ _ Hs).
  destruct (Nat.eqb_spec (size inodeSet) 0) as [Hz|_].
  - by rewrite matchingPorts_empty.
  - unfold allRows. by rewrite matchingPorts_app, Array_from_Set_app.
Qed.

Lemma matchingPorts_texts (h : Host) (rows : list (list string)) (hexes : list string) :
  Forall2 hasPortText rows hexes → omap (rowPort h) rows = map portOfText hexes.
Proof.
  induction 1 as [|fields hex rows hexes (ip & Hla & Hip & Hhex & Hlt) _ IH]; [done|].
  simpl. unfold rowPort at 1. rewrite Hla, decodePort_hex by done. simpl.
  fold (omap (rowPort h) rows). by rewrite IH.
Qed.

(** C1, counterexample.  The process 42 owns the socket 12345; the table
    has two data rows of that socket, both on port 8080, and one row of
    another socket.  With two matching rows the call returns one port, not
    two. *)
Lemma linux_join_fewer_ports :
  getSocketInodesForPid Examples.linuxHost Examples.pid42
  = ([Readdir "/proc/42/fd"; Readlink "/proc/42/fd/0"; Readlink "/proc/42/fd/3";
      Readlink "/proc/42/fd/4"], Fulfilled {[ "12345" ]})
  ∧ length (List.filter (rowMatches {[ "12345" ]}) (allRows Examples.linuxHost)) = 2%nat
  ∧ length (List.filter (λ fields, negb (rowMatches {[ "12345" ]} fields))
              (allRows Examples.linuxHost)) = 1%nat
  ∧ outcome (findPortByPid Examples.linuxHost Examples.pid42) = Fulfilled (Some ["8080"])
  ∧ length ["8080"] ≠ 2%nat.
Proof. split_and!; by vm_compute. Qed.

(** C1, as amended.  On Linux, with the inode set collected from the
    descriptors of the process, let the matching rows be the data rows of the
    two tables whose inode field (index 9) is in the set, each with a local
    address of the form address, colon, port text.  The call returns [null]
    when no row matches, and otherwise the array of the ports of the matching
    rows, each port being the decimal writing of the base-16 value of the
    port text, and each port once: a port is returned exactly when a matching
    row has it, so none comes from a row that does not match.  When the [M]
    matching rows have [M] different ports, the result is exactly these [M]
    ports. *)
Theorem linux_join_distinct_ports (h : Host) (pid : number) (t : list Request)
    (inodeSet : gset string) (hexes : list string) :
  validPid pid → platform h = "linux" →
  getSocketInodesForPid h pid = (t, Fulfilled inodeSet) →
  Forall2 hasPortText (List.filter (rowMatches inodeSet) (allRows h)) hexes →
  ∃ ports,
    (hexes = [] → outcome (findPortByPid h pid) = Fulfilled None)
    ∧ (hexes ≠ [] → outcome (findPortByPid h pid) = Fulfilled (Some ports))
    ∧ NoDup ports
    ∧ (∀ p, p ∈ ports ↔ ∃ hex, hex ∈ hexes ∧ p = portOfText hex)
    ∧ (NoDup (map portOfText hexes) →
       ports = map portOfText hexes
       ∧ length ports = length (List.filter (rowMatches inodeSet) (allRows h))).
Proof.
  intros Hv Hp Hs Hrows. exists (Array_from_Set (map portOfText hexes)).
  assert (outcome (findPortByPid h pid)
          = Fulfilled (orNull (Array_from_Set (map portOfText hexes)))) as Ho.
  { rewrite findPortByPid_linux by done. rewrite (linuxBranch_outcome _ _ _ _ Hs).
    unfold matchingPorts. by rewrite (matchingPorts_texts _ _ _ Hrows). }
  split_and!.
  - intros ->. exact Ho.
  - intros Hne. rewrite Ho. f_equal.
    destruct (Array_from_Set (map portOfText hexes)) as [|p ports] eqn:Hports; [|done].
    destruct hexes as [|hex hexes]; [done|]. exfalso.
    apply (not_elem_of_nil (portOfText hex)). rewrite <- Hports.
    apply Array_from_Set_elem. left.
  - apply Array_from_Set_NoDup.
  - intros p. rewrite Array_from_Set_elem, list_elem_of_fmap. naive_solver.
  - intros Hnd. rewrite Array_from_Set_distinct by done. split; [done|].
    rewrite length_map. symmetry. by eapply Forall2_length.
Qed.

Lemma linux_join_distinct_ports_witness :
  outcome (findPortByPid Examples.joinHost Examples.pid42)
  = Fulfilled (Some ["8080"; "443"])
  ∧ length (List.filter (rowMatches {[ "12345" ]}) (allRows Examples.joinHost)) = 2%nat
  ∧ length (List.filter (λ fields, negb (rowMatches {[ "12345" ]} fields))
              (allRows Examples.joinHost)) = 1%nat.
Proof.
  destruct (linux_join_distinct_ports Examples.joinHost Examples.pid42
              [Readdir "/proc/42/fd"; Readlink "/proc/42/fd/0";
               Readlink "/proc/42/fd/3"; Readlink "/proc/42/fd/4"]
              {[ "12345" ]} ["1F90"; "01BB"] validPid_42 eq_refl)
    as (ports & _ & Hsome & _ & _ & Hdistinct).
  - vm_compute. reflexivity.
  - vm_compute List.filter.
    apply Forall2_cons_2; [exists "0100007F"; split_and!; reflexivity|].
    apply Forall2_cons_2; [exists "00000000"; split_and!; reflexivity|].
    apply Forall2_nil_2.
  - destruct Hdistinct as [-> Hlen].
    + vm_compute. repeat constructor; set_solver.
    + split_and!.
      * apply Hsome. discriminate.
      * symmetry. exact Hlen.
      * vm_compute. reflexivity.
Defined.

(** ** Deduplication *)

Lemma darwinPorts_NoDup (out : string) : NoDup (darwinPorts out).
Proof. rewrite darwinPorts_eq. apply Array_from_Set_NoDup. Qed.

(** X11. With a valid pid, what the macOS branch returns holds no port
    twice, however often the lines of the output show it. *)
Lemma darwin_result_NoDup (h : Host) (pid : number) (ports : list string) :
  validPid pid → platform h = "darwin" →
  outcome (findPortByPid h pid) = Fulfilled (Some ports) → NoDup ports.
Proof.
  intros Hv Hp. rewrite findPortByPid_darwin by done. unfold outcome. simpl.
  destruct (exec h (darwinCommand h pid)) as [[e|] out err]; [done|].
  rewrite darwinCallback_eq. simpl. intros [= Ho].
  apply orNull_Some in Ho as [-> _]. apply darwinPorts_NoDup.
Qed.

(** What the Linux branch returns when it returns ports. *)
Lemma linux_result (h : Host) (pid : number) (ports : list string) :
  validPid pid → platform h = "linux" →
  outcome (findPortByPid h pid) = Fulfilled (Some ports) →
  ∃ inodeSet : gset string,
    ports = Array_from_Set (matchingPorts h inodeSet (allRows h)).
Proof.
  intros Hv Hp. rewrite findPortByPid_linux by done.
  pose proof (getSocketInodesForPid_eq h pid) as Hs.
  destruct (readdir h (fdDir h pid)) as [files|e].
  - rewrite (linuxBranch_outcome _ _ _ _ Hs). intros [= Ho].
    apply orNull_Some in Ho as [-> _]. eauto.
  - by rewrite (linuxBranch_rejected _ _ _ _ Hs).
Qed.

(** X12. With a valid pid, what the Linux branch returns holds no port
    twice: rows of one socket on one port, in one table or in both, give one
    entry. *)
Lemma linux_result_NoDup (h : Host) (pid : number) (ports : list string) :
  validPid pid → platform h = "linux" →
  outcome (findPortByPid h pid) = Fulfilled (Some ports) → NoDup ports.
Proof.
  intros Hv Hp Ho. destruct (linux_result _ _ _ Hv Hp Ho) as [inodeSet ->].
  apply Array_from_Set_NoDup.
Qed.

(** C5. The Windows branch does not remove duplicates, as the macOS and
    Linux branches do: when the query prints the port 3000 twice (a process
    that listens on two addresses), the result holds it twice. *)
Theorem win32_keeps_duplicates :
  findPortByPid Examples.win32Twice Examples.pid42
  = ([Exec (win32Command Examples.win32Twice Examples.pid42)],
     Fulfilled (Some ["3000"; "3000"]))
  ∧ ¬ NoDup ["3000"; "3000"].
Proof.
  split; [by vm_compute|].
  intros Hnd. apply NoDup_cons in Hnd as [Hn _]. apply Hn. left.
Qed.

(** ** Range of the ports *)

Lemma decimal_inj (n m : Z) : JsNumber.decimal n = JsNumber.decimal m → n = m.
Proof.
  unfold JsNumber.decimal. intros Hs. apply DecimalZ.to_int_inj.
  assert (∀ z, NilZero.int_of_string (NilZero.string_of_int (Z.to_int z))
               = Some (Z.to_int z)) as Hi.
  { intros z. apply NilZero.isi; destruct z; simpl; try done;
      intros [= Hnil]; by apply DecimalPos.Unsigned.to_uint_nonnil in Hnil. }
  pose proof (Hi n) as Hn. rewrite Hs, Hi in Hn. congruence.
Qed.

Lemma hexText_denotesPort (h : Host) (hex : string) :
  hexText hex = true → (String.length hex ≤ 4)%nat →
  denotesPort (Number_toString h (JsNumber.parseInt16 hex)).
Proof.
  intros Hhex Hlen. pose proof Hhex as [_ Hall]%andb_true_iff.
  pose proof (base16_bound _ Hall) as Hb.
  assert (16 ^ Z.of_nat (String.length hex) ≤ 16 ^ 4) as Hpow.
  { apply Z.pow_le_mono_r; lia. }
  rewrite parseInt16_hexText, Number_toString_safe by (done || lia).
  exists (base16 hex). split; [lia|done].
Qed.

(** C4, counterexample.  A row whose local address carries five
    hexadecimal digits after the colon makes the Linux branch return the
    port 1048575, which is beyond 65535. *)
Lemma port_out_of_range :
  outcome (findPortByPid Examples.wideHost Examples.pid42)
  = Fulfilled (Some ["1048575"])
  ∧ ¬ denotesPort "1048575".
Proof.
  split; [by vm_compute|].
  intros (n & Hn & Hs). change "1048575" with (JsNumber.decimal 1048575) in Hs.
  apply decimal_inj in Hs. lia.
Qed.

(** C4, as amended.  The ports of a result are not checked against 65535.
    On Linux each is the decimal writing of an integer of [0, 65535]
    provided that, in every data row of the two tables, the text after the
    first colon of the local-address field is one to four hexadecimal
    digits.  On macOS each is a non-empty run of decimal digits.  On Windows
    each is a non-empty line of the output, trimmed. *)
Theorem port_range_amended (h : Host) (pid : number) (ports : list string) (p : string) :
  validPid pid →
  outcome (findPortByPid h pid) = Fulfilled (Some ports) → p ∈ ports →
  (platform h = "linux" →
   (∀ fields localAddress hex, fields ∈ allRows h →
      fields !! 1%nat = Some localAddress → afterFirst ":" localAddress = Some hex →
      hexText hex = true ∧ (String.length hex ≤ 4)%nat) →
   denotesPort p)
  ∧ (platform h = "darwin" → testDigits p = true)
  ∧ (platform h = "win32" →
     p ≠ EmptyString
     ∧ ∃ line, line ∈ split newline (trim (stdout (exec h (win32Command h pid))))
         ∧ p = trim line).
Proof.
  intros Hv Ho Hin. split_and!; intros Hp.
  - intros Hrows. destruct (linux_result _ _ _ Hv Hp Ho) as [inodeSet ->].
    apply Array_from_Set_elem, elem_of_matchingPorts in Hin
      as (fields & Hf & _ & Hport).
    unfold rowPort in Hport. destruct (fields !! 1%nat) as [la|] eqn:Hla; [|done].
    unfold decodePort in Hport. destruct (afterFirst ":" la) as [hex|] eqn:Hhex; [|done].
    injection Hport as <-. destruct (Hrows _ _ _ Hf Hla Hhex) as [Ht Hl].
    by apply hexText_denotesPort.
  - rewrite findPortByPid_darwin in Ho by done. unfold outcome in Ho. simpl in Ho.
    destruct (exec h (darwinCommand h pid)) as [[e|] out err]; [done|].
    rewrite darwinCallback_eq in Ho. injection Ho as Ho.
    apply orNull_Some in Ho as [-> _].
    rewrite darwinPorts_eq in Hin.
    apply Array_from_Set_elem, list_elem_of_omap in Hin as (part & _ & Hv').
    by apply partView_Some in Hv' as [_ Hd].
  - rewrite findPortByPid_win32 in Ho by done. unfold outcome in Ho. simpl in Ho.
    unfold win32Callback in Ho.
    destruct (error (exec h (win32Command h pid))); [done|].
    destruct (isEmpty (trim _)); [done|]. injection Ho as Ho.
    apply orNull_Some in Ho as [-> _].
    apply list_elem_of_In, filter_In in Hin as [Hin Hne].
    apply list_elem_of_In, list_elem_of_fmap in Hin as (line & -> & Hline).
    split; [|by exists line]. intros Hempty. by rewrite Hempty in Hne.
Qed.

Lemma port_range_amended_witness :
  denotesPort "8080".
Proof.
  refine (proj1 (port_range_amended Examples.linuxHost Examples.pid42 ["8080"] "8080"
                   validPid_42 _ _) eq_refl _).
  - by vm_compute.
  - left.
  - intros fields localAddress hex Hf Hla Hhex.
    assert (Forall (λ fields, ∀ localAddress hex,
              fields !! 1%nat = Some localAddress →
              afterFirst ":" localAddress = Some hex →
              hexText hex = true ∧ (String.length hex ≤ 4)%nat)
            (allRows Examples.linuxHost)) as Hall.
    { vm_compute allRows.
      repeat (apply Forall_cons_2;
                [intros la hx [= <-]; simpl; intros [= <-];
                 split; [reflexivity|simpl; lia]|]).
      apply Forall_nil_2. }
    rewrite Forall_forall in Hall. exact (Hall _ Hf _ _ Hla Hhex).
Defined.

(** ** Further properties of the dispatch and of the requests *)

(** X1. With a valid pid, on a platform other than [win32], [darwin] and
    [linux], the call rejects with [Unsupported platform: <platform>] and
    makes no request to the host. *)
Theorem unsupported_platform (h : Host) (pid : number) :
  validPid pid →
  platform h ≠ "win32" → platform h ≠ "darwin" → platform h ≠ "linux" →
  findPortByPid h pid = ([], Rejected ("Unsupported platform: " +:+ platform h)).
Proof.
  intros Hv Hw Hd Hl. rewrite findPortByPid_valid by done.
  by rewrite !(proj2 (String.eqb_neq _ _)).
Qed.

Lemma unsupported_platform_witness :
  findPortByPid Examples.freebsdHost Examples.pid42
  = ([], Rejected "Unsupported platform: freebsd").
Proof.
  exact (unsupported_platform Examples.freebsdHost Examples.pid42 validPid_42
           ltac:(discriminate) ltac:(discriminate) ltac:(discriminate)).
Defined.

Lemma omap_descriptorInode_nil (h : Host) (dir : string) (files : list string) :
  (∀ file link, file ∈ files → readlink h (dir +:+ "/" +:+ file) = Fulfilled link →
     socketMatch link = None) →
  omap (descriptorInode h dir) files = [].
Proof.
  induction files as [|file files IH]; intros Hno; [done|]. simpl.
  assert (descriptorInode h dir file = None) as ->.
  { unfold descriptorInode.
    destruct (readlink h (dir +:+ "/" +:+ file)) as [link|e] eqn:Hl; [|done].
    apply (Hno file link); [left|done]. }
  apply IH. intros file' link Hin. apply Hno. by right.
Qed.

(** X2. On Linux, when the descriptors of the process can be listed and
    none of them is a socket, the call returns [null] after the listing and
    one [readlink] per descriptor: the connection tables are not read. *)
Theorem linux_no_socket_no_table (h : Host) (pid : number) (files : list string) :
  validPid pid → platform h = "linux" →
  readdir h (fdDir h pid) = Fulfilled files →
  (∀ file link, file ∈ files →
     readlink h (fdDir h pid +:+ "/" +:+ file) = Fulfilled link →
     socketMatch link = None) →
  findPortByPid h pid
  = (Readdir (fdDir h pid) :: map (readlinkOf (fdDir h pid)) files, Fulfilled None).
Proof.
  intros Hv Hp Hd Hno. rewrite findPortByPid_linux by done.
  pose proof (getSocketInodesForPid_eq h pid) as Hs. rewrite Hd in Hs.
  rewrite (omap_descriptorInode_nil _ _ _ Hno) in Hs.
  by rewrite (linuxBranch_eq _ _ _ _ Hs).
Qed.

Lemma linux_no_socket_no_table_witness :
  findPortByPid Examples.idleHost Examples.pid7
  = ([Readdir "/proc/7/fd"; Readlink "/proc/7/fd/0"; Readlink "/proc/7/fd/1"],
     Fulfilled None).
Proof.
  refine (linux_no_socket_no_table Examples.idleHost Examples.pid7 ["0"; "1"]
            ltac:(by split) eq_refl eq_refl _).
  intros file link Hin Hl.
  apply elem_of_cons in Hin as [->|Hin]; [by injection Hl as <-|].
  apply elem_of_cons in Hin as [->|Hin]; [by injection Hl as <-|].
  by apply elem_of_nil in Hin.
Defined.

(** X3. On Linux, when some descriptor of the process is a socket, the
    requests of a call are, in this order: the listing of the descriptor
    directory, one [readlink] per descriptor in the order of the listing,
    one read of [/proc/net/tcp] and one read of [/proc/net/tcp6]; both tables
    are read whatever the first one holds, and no command is run. *)
Theorem linux_requests (h : Host) (pid : number) (files : list string)
    (file link inode : string) :
  validPid pid → platform h = "linux" →
  readdir h (fdDir h pid) = Fulfilled files →
  file ∈ files → readlink h (fdDir h pid +:+ "/" +:+ file) = Fulfilled link →
  socketMatch link = Some inode →
  requests (findPortByPid h pid)
  = Readdir (fdDir h pid) :: map (readlinkOf (fdDir h pid)) files
    ++ [ReadFile "/proc/net/tcp"; ReadFile "/proc/net/tcp6"].
Proof.
  intros Hv Hp Hd Hin Hl Hm. rewrite findPortByPid_linux by done.
  pose proof (getSocketInodesForPid_eq h pid) as Hs. rewrite Hd in Hs.
  rewrite (linuxBranch_eq _ _ _ _ Hs).
  destruct (Nat.eqb_spec (size (list_to_set (C := gset string)
              (omap (descriptorInode h (fdDir h pid)) files))) 0) as [Hz|_]; [|done].
  apply size_empty_inv in Hz. exfalso. apply (not_elem_of_empty (C := gset string) inode).
  apply Hz, elem_of_list_to_set, list_elem_of_omap. exists file. split; [done|].
  unfold descriptorInode. by rewrite Hl.
Qed.

Lemma linux_requests_witness :
  requests (findPortByPid Examples.linuxHost Examples.pid42)
  = [Readdir "/proc/42/fd"; Readlink "/proc/42/fd/0"; Readlink "/proc/42/fd/3";
     Readlink "/proc/42/fd/4"; ReadFile "/proc/net/tcp"; ReadFile "/proc/net/tcp6"].
Proof.
  refine (linux_requests Examples.linuxHost Examples.pid42 ["0"; "3"; "4"]
            "3" "socket:[12345]" "12345" validPid_42 eq_refl eq_refl _ eq_refl eq_refl).
  right. left.
Defined.

Lemma darwinCallback_requests (r : ExecResult) : requests (darwinCallback r) = [].
Proof.
  unfold darwinCallback. destruct (error r); [done|]. by destruct (isEmpty _).
Qed.

Lemma win32Callback_requests (r : ExecResult) : requests (win32Callback r) = [].
Proof.
  unfold win32Callback. destruct (error r); [done|]. by destruct (isEmpty _).
Qed.

(** X4. With a pid that is a positive safe integer, the Windows and macOS
    branches make exactly one request, the command with the pid written in
    decimal: [lsof -i -P -n | grep -w <pid>] on macOS and the PowerShell
    query with [-eq <pid>] on Windows.  No file or directory is read. *)
Theorem shell_branches_single_command (h : Host) (z : Z) :
  0 < z < 2 ^ 53 →
  (platform h = "darwin" →
   requests (findPortByPid h (JsNumber.ofZ z))
   = [Exec ("lsof -i -P -n | grep -w " +:+ JsNumber.decimal z)])
  ∧ (platform h = "win32" →
     requests (findPortByPid h (JsNumber.ofZ z))
     = [Exec ("powershell -Command " +:+ doubleQuote
              +:+ "Get-NetTCPConnection | Where-Object { $_.OwningProcess -eq "
              +:+ JsNumber.decimal z
              +:+ " } | Select-Object -ExpandProperty LocalPort" +:+ doubleQuote)]).
Proof.
  intros Hz.
  assert (validPid (JsNumber.ofZ z)) as Hv.
  { apply positiveInteger_valid. exists z. split; [lia|]. by exists (inject_Z z). }
  assert (Number_toString h (JsNumber.ofZ z) = JsNumber.decimal z) as Hs.
  { apply Number_toString_safe. lia. }
  split; intros Hp.
  - rewrite findPortByPid_darwin by done. unfold requests at 1. cbn [fst].
    rewrite darwinCallback_requests, app_nil_r. unfold darwinCommand. by rewrite Hs.
  - rewrite findPortByPid_win32 by done. unfold requests at 1. cbn [fst].
    rewrite win32Callback_requests, app_nil_r. unfold win32Command. by rewrite Hs.
Qed.

Lemma shell_branches_single_command_witness :
  requests (findPortByPid Examples.darwinHost (JsNumber.ofZ 42))
  = [Exec "lsof -i -P -n | grep -w 42"].
Proof.
  exact (proj1 (shell_branches_single_command Examples.darwinHost 42
                  ltac:(split; reflexivity)) eq_refl).
Defined.

(** ** Further properties of the outcomes *)

(** X5. On Linux, with a valid pid, the call rejects only when the
    descriptor directory cannot be listed: every rejection carries the
    message of that failure under the two prefixes.  No failure of
    [readlink] or of [readFile] reaches the caller. *)
Theorem linux_rejects_only_on_readdir (h : Host) (pid : number) (message : string) :
  validPid pid → platform h = "linux" →
  outcome (findPortByPid h pid) = Rejected message →
  ∃ e, readdir h (fdDir h pid) = Rejected e
    ∧ message = "Error reading Linux network info: Unable to read fd directory: " +:+ e.
Proof.
  intros Hv Hp. rewrite findPortByPid_linux by done.
  pose proof (getSocketInodesForPid_eq h pid) as Hs.
  destruct (readdir h (fdDir h pid)) as [files|e].
  - rewrite (linuxBranch_outcome _ _ _ _ Hs). done.
  - rewrite (linuxBranch_rejected _ _ _ _ Hs). intros [= <-]. by exists e.
Qed.

Lemma linux_rejects_only_on_readdir_witness :
  ∃ e, readdir Examples.goneHost (fdDir Examples.goneHost Examples.pid42) = Rejected e
    ∧ "Error reading Linux network info: Unable to read fd directory: ENOENT"
      = "Error reading Linux network info: Unable to read fd directory: " +:+ e.
Proof.
  exact (linux_rejects_only_on_readdir Examples.goneHost Examples.pid42 _
           validPid_42 eq_refl eq_refl).
Defined.

(** X6. On macOS, with a valid pid, the call never rejects: whatever the
    command does, the promise is fulfilled. *)
Theorem darwin_never_rejects (h : Host) (pid : number) :
  validPid pid → platform h = "darwin" →
  ∃ result, outcome (findPortByPid h pid) = Fulfilled result.
Proof.
  intros Hv Hp. rewrite findPortByPid_darwin by done. unfold outcome. simpl.
  unfold darwinCallback. destruct (error _); [by eexists|].
  destruct (isEmpty _); by eexists.
Qed.

Lemma darwin_never_rejects_witness :
  ∃ result, outcome (findPortByPid Examples.darwinFailed Examples.pid42) = Fulfilled result.
Proof.
  exact (darwin_never_rejects Examples.darwinFailed Examples.pid42 validPid_42 eq_refl).
Defined.

(** X7. On Windows, with a valid pid, the call rejects exactly when the
    command reports an error; a command that succeeds never makes it
    reject, whatever it prints. *)
Theorem win32_rejects_iff_error (h : Host) (pid : number) :
  validPid pid → platform h = "win32" →
  (∃ message, outcome (findPortByPid h pid) = Rejected message)
  ↔ error (exec h (win32Command h pid)) ≠ None.
Proof.
  intros Hv Hp. rewrite findPortByPid_win32 by done. unfold outcome. simpl.
  unfold win32Callback. destruct (error _) as [e|].
  - split; [done|]. intros _. by eexists.
  - split; [|done]. intros [message Hm]. by destruct (isEmpty _).
Qed.

Lemma win32_rejects_iff_error_witness :
  ∃ message, outcome (findPortByPid Examples.win32Failed Examples.pid42) = Rejected message.
Proof.
  apply (win32_rejects_iff_error Examples.win32Failed Examples.pid42 validPid_42 eq_refl).
  discriminate.
Defined.

(** ** Further properties of the scan of a connection table *)

Lemma split_cons (sep : ascii) (pre rest : string) :
  includes sep pre = false →
  split sep (pre +:+ String sep rest) = pre :: split sep rest.
Proof.
  induction pre as [|c pre IH]; simpl.
  - by rewrite Ascii.eqb_refl.
  - intros [Hc Hpre]%orb_false_iff. by rewrite Hc, IH.
Qed.

(** X8. The first line of a connection table never contributes, whatever
    it holds: the result of [getPortsFromProcNet] is the scan of the lines
    after the first line feed.  A table of a single line, even a row of a
    socket of the process, gives the empty array. *)
Theorem header_line_ignored (h : Host) (filePath : string) (inodeSet : gset string) :
  (∀ header rest, readFile h filePath = Fulfilled (header +:+ String newline rest) →
     includes newline header = false →
     outcome (getPortsFromProcNet h filePath inodeSet)
     = Fulfilled (fold_left (portOfRow h inodeSet) (split newline rest) []))
  ∧ (∀ content, readFile h filePath = Fulfilled content →
       includes newline content = false →
       outcome (getPortsFromProcNet h filePath inodeSet) = Fulfilled []).
Proof.
  unfold getPortsFromProcNet, fs_readFile. split.
  - intros header rest -> Hh. rewrite tryAwait_fulfilled. simpl.
    by rewrite split_cons.
  - intros content -> Hc. rewrite tryAwait_fulfilled. simpl.
    by rewrite split_without.
Qed.

Lemma header_line_ignored_witness :
  outcome (getPortsFromProcNet Examples.linuxHost procNetTcp {[ "12345" ]})
  = Fulfilled (fold_left (portOfRow Examples.linuxHost {[ "12345" ]})
                 (split newline Examples.tcpBody) []).
Proof.
  refine (proj1 (header_line_ignored Examples.linuxHost procNetTcp {[ "12345" ]})
            Examples.tcpHeader Examples.tcpBody _ _).
  - vm_compute. reflexivity.
  - vm_compute. reflexivity.
Defined.

(** X9. [getPortsFromProcNet] never rejects: for every path, host and
    inode set it is fulfilled after exactly one request, the read of the
    file, with an array that holds no port twice. *)
Theorem getPortsFromProcNet_settles (h : Host) (filePath : string)
    (inodeSet : gset string) :
  ∃ ports, getPortsFromProcNet h filePath inodeSet = ([ReadFile filePath], Fulfilled ports)
    ∧ NoDup ports.
Proof.
  eexists. split; [apply getPortsFromProcNet_eq|apply Array_from_Set_NoDup].
Qed.

Lemma filter_ext_elem (P Q : string → Prop) `{∀ x, Decision (P x)}
    `{∀ x, Decision (Q x)} (l : list string) :
  (∀ x, x ∈ l → P x ↔ Q x) → filter P l = filter Q l.
Proof.
  induction l as [|x l IH]; intros Hext; [done|].
  assert (filter P l = filter Q l) as Hl.
  { apply IH. intros y Hy. apply Hext. by right. }
  destruct (decide (P x)) as [Hx|Hx].
  - rewrite !filter_cons_True, Hl; [done| |done]. apply Hext; [left|done].
  - rewrite !filter_cons_False, Hl; [done| |done]. intros Hq. apply Hx, Hext; [left|done].
Qed.

Lemma fold_pushUnique_filter (b a : list string) :
  NoDup b →
  fold_left pushUnique b a = a ++ filter (λ x, x ∉ a) b.
Proof.
  revert a. induction b as [|y b IH]; intros a Hnd; simpl.
  - by rewrite app_nil_r.
  - apply NoDup_cons in Hnd as [Hy Hnd]. rewrite IH by done.
    destruct (decide (y ∈ a)) as [Hya|Hya].
    + unfold pushUnique, Array_includes. rewrite bool_decide_eq_true_2 by done.
      rewrite filter_cons_False; [done|]. by intros ?.
    + rewrite pushUnique_fresh, filter_cons_True by done.
      rewrite <- app_assoc. simpl. do 2 f_equal.
      apply filter_ext_elem. intros x Hx.
      rewrite not_elem_of_app, list_elem_of_singleton. split; [tauto|].
      intros Hxa. split; [done|]. by intros ->.
Qed.

(** X10. The result of the Linux branch keeps the order of discovery.  With
    a non-empty inode set, when neither table gives a port the call returns
    [null]; otherwise it returns the array of [/proc/net/tcp] followed by the
    ports of [/proc/net/tcp6] that the first array does not hold. *)
Theorem ipv4_ports_first (h : Host) (pid : number) (t : list Request)
    (inodeSet : gset string) (tcpPorts tcp6Ports : list string) :
  validPid pid → platform h = "linux" →
  getSocketInodesForPid h pid = (t, Fulfilled inodeSet) → size inodeSet ≠ 0%nat →
  outcome (getPortsFromProcNet h "/proc/net/tcp" inodeSet) = Fulfilled tcpPorts →
  outcome (getPortsFromProcNet h "/proc/net/tcp6" inodeSet) = Fulfilled tcp6Ports →
  (tcpPorts = [] → tcp6Ports = [] → outcome (findPortByPid h pid) = Fulfilled None)
  ∧ (tcpPorts ++ tcp6Ports ≠ [] →
     outcome (findPortByPid h pid)
     = Fulfilled (Some (tcpPorts ++ filter (λ port, port ∉ tcpPorts) tcp6Ports))).
Proof.
  intros Hv Hp Hs Hsize. rewrite !getPortsFromProcNet_eq. intros [= H4] [= H6].
  assert (outcome (findPortByPid h pid)
          = Fulfilled (orNull (tcpPorts ++ filter (λ port, port ∉ tcpPorts) tcp6Ports)))
    as Ho.
  { rewrite findPortByPid_linux by done. rewrite (linuxBranch_eq _ _ _ _ Hs).
    destruct (Nat.eqb_spec (size inodeSet) 0) as [|_]; [done|].
    unfold outcome, procNetTcp, procNetTcp6. simpl. rewrite H4, H6.
    do 2 f_equal. unfold Array_from_Set.
    rewrite fold_left_app. fold (Array_from_Set tcpPorts).
    assert (NoDup tcpPorts) as Hnd4 by (rewrite <- H4; apply Array_from_Set_NoDup).
    assert (NoDup tcp6Ports) as Hnd6 by (rewrite <- H6; apply Array_from_Set_NoDup).
    rewrite Array_from_Set_distinct by done. by apply fold_pushUnique_filter. }
  split.
  - intros -> ->. exact Ho.
  - intros Hne. rewrite Ho. f_equal.
    destruct tcpPorts as [|p ps]; [|done]. simpl in *.
    destruct tcp6Ports as [|p ps]; [done|].
    rewrite filter_cons_True by apply not_elem_of_nil. done.
Qed.

Lemma ipv4_ports_first_witness :
  outcome (findPortByPid Examples.dualHost Examples.pid42)
  = Fulfilled (Some ["8080"; "443"]).
Proof.
  refine (eq_trans
            (proj2 (ipv4_ports_first Examples.dualHost Examples.pid42
                      [Readdir "/proc/42/fd"; Readlink "/proc/42/fd/0";
                       Readlink "/proc/42/fd/3"; Readlink "/proc/42/fd/4"]
                      {[ "12345" ]} ["8080"] ["8080"; "443"] validPid_42 eq_refl
                      _ _ _ _) _) _).
  - vm_compute. reflexivity.
  - vm_compute. discriminate.
  - vm_compute. reflexivity.
  - vm_compute. reflexivity.
  - discriminate.
  - vm_compute. reflexivity.
Defined.

(** ** Further properties of the results *)

Lemma darwin_result_NoDup_witness : NoDup ["3000"].
Proof.
  refine (darwin_result_NoDup Examples.darwinDual Examples.pid42 ["3000"]
            validPid_42 eq_refl _).
  vm_compute. reflexivity.
Defined.

Lemma linux_result_NoDup_witness : NoDup ["8080"; "443"].
Proof.
  refine (linux_result_NoDup Examples.dualHost Examples.pid42 ["8080"; "443"]
            validPid_42 eq_refl _).
  vm_compute. reflexivity.
Defined.

(** ** Further properties of the decoding of the port *)

Lemma afterFirst_without (sep : ascii) (s : string) :
  includes sep s = false → afterFirst sep s = None.
Proof.
  induction s as [|c s IH]; simpl; [done|].
  intros [Hc Hs]%orb_false_iff. rewrite Hc. by apply IH.
Qed.

Lemma hexText_no_prefix (s : string) :
  allHex s = true → startsWith "0x" s = false ∧ startsWith "0X" s = false.
Proof.
  intros Hs. destruct s as [|c s]; [done|]. rewrite !startsWith_cons.
  destruct (Ascii.eqb "0" c); [|done].
  apply allHex_cons in Hs as [_ Hs]. destruct s as [|c' s]; [done|].
  apply allHex_cons in Hs as [Hc' _]. destruct (hexDigit_not_x c' Hc') as [Hx HX].
  by rewrite !startsWith_char, Hx, HX.
Qed.

(** The last step of [parseInt] on a text of radix-16 digits. *)
Lemma parse_hexText (sign : Z) (s : string) :
  hexText s = true →
  match hexPrefix s with
  | [] => NaN
  | ds => JsNumber.ofZ (sign * hexValue ds)
  end = JsNumber.ofZ (sign * base16 s).
Proof.
  intros [Hne Hall]%andb_true_iff. rewrite <- (hexValue_base16 _ Hall).
  destruct s as [|c s]; [done|]. apply allHex_cons in Hall as [[d Hd] _].
  cbn [hexPrefix]. by rewrite Hd.
Qed.

Lemma hexPrefix_app (hex : string) (c : ascii) (rest : string) :
  allHex hex = true → hexDigitValue c = None →
  hexPrefix (hex +:+ String c rest) = hexPrefix hex.
Proof.
  intros Hall Hc. induction hex as [|a hex IH]; simpl.
  - by rewrite Hc.
  - apply allHex_cons in Hall as [[d Hd] Hall]. rewrite Hd. f_equal. by apply IH.
Qed.

(** The steps of [parseInt], named. *)
Lemma parseInt16_steps (s s1 s2 s3 : string) (sign : Z) :
  trimStart s = s1 →
  (if startsWith "-" s1 then -1 else 1) = sign →
  (if startsWith "-" s1 || startsWith "+" s1 then tail s1 else s1) = s2 →
  (if startsWith "0x" s2 || startsWith "0X" s2 then tail (tail s2) else s2) = s3 →
  JsNumber.parseInt16 s
  = match hexPrefix s3 with
    | [] => NaN
    | ds => JsNumber.ofZ (sign * hexValue ds)
    end.
Proof. by intros <- <- <- <-. Qed.

Lemma parseInt16_empty_or_other (text : string) :
  text = EmptyString
  ∨ (∃ c rest, text = String c rest ∧ hexDigitValue c = None
       ∧ isWhiteSpace c = false ∧ c ≠ "-"%char ∧ c ≠ "+"%char) →
  JsNumber.parseInt16 text = NaN.
Proof.
  intros [->|(c & rest & -> & Hc & Hw & Hm & Hp)]; [done|].
  rewrite (parseInt16_steps _ (String c rest) (String c rest) (String c rest) 1).
  - cbn [hexPrefix]. by rewrite Hc.
  - cbn [trimStart]. by rewrite Hw.
  - by rewrite startsWith_char, (proj2 (Ascii.eqb_neq "-" c)).
  - by rewrite !startsWith_char, (proj2 (Ascii.eqb_neq "-" c)),
      (proj2 (Ascii.eqb_neq "+" c)).
  - rewrite !startsWith_cons.
    assert (Ascii.eqb "0" c = false) as ->; [|done].
    apply Ascii.eqb_neq. by intros <-.
Qed.

Lemma parseInt16_signed (hex : string) :
  hexText hex = true →
  JsNumber.parseInt16 (String "-" hex) = JsNumber.ofZ (- base16 hex)
  ∧ JsNumber.parseInt16 (String "+" hex) = JsNumber.ofZ (base16 hex).
Proof.
  intros Hhex. pose proof Hhex as [_ Hall]%andb_true_iff.
  destruct (hexText_no_prefix _ Hall) as [Hx HX]. split.
  - rewrite (parseInt16_steps _ (String "-" hex) hex hex (-1));
      [|done|done|done|by rewrite Hx, HX].
    rewrite parse_hexText by done. f_equal; lia.
  - rewrite (parseInt16_steps _ (String "+" hex) hex hex 1);
      [|done|done|done|by rewrite Hx, HX].
    rewrite parse_hexText by done. f_equal; lia.
Qed.

Lemma parseInt16_prefixed (hex : string) :
  hexText hex = true →
  JsNumber.parseInt16 (String "0" (String "x" hex)) = JsNumber.ofZ (base16 hex)
  ∧ JsNumber.parseInt16 (String "0" (String "X" hex)) = JsNumber.ofZ (base16 hex).
Proof.
  intros Hhex. split.
  - rewrite (parseInt16_steps _ (String "0" (String "x" hex))
               (String "0" (String "x" hex)) hex 1) by done.
    rewrite parse_hexText by done. f_equal; lia.
  - rewrite (parseInt16_steps _ (String "0" (String "X" hex))
               (String "0" (String "X" hex)) hex 1) by done.
    rewrite parse_hexText by done. f_equal; lia.
Qed.

Lemma parseInt16_trailing (hex : string) (c : ascii) (rest : string) :
  hexText hex = true → hexDigitValue c = None → c ≠ "x"%char → c ≠ "X"%char →
  JsNumber.parseInt16 (hex +:+ String c rest) = JsNumber.ofZ (base16 hex).
Proof.
  intros Hhex Hc Hx HX. pose proof Hhex as [Hne Hall]%andb_true_iff.
  rewrite (parseInt16_steps _ (hex +:+ String c rest) (hex +:+ String c rest)
             (hex +:+ String c rest) 1).
  { rewrite hexPrefix_app by done. rewrite parse_hexText by done. f_equal; lia. }
  all: destruct hex as [|a hex]; [done|]; apply allHex_cons in Hall as [Ha Hall];
    change (String a hex +:+ String c rest) with (String a (hex +:+ String c rest));
    destruct (hexDigit_not_sign a Ha) as [Hm Hp].
  - cbn [trimStart]. by rewrite (hexDigit_not_space a Ha).
  - by rewrite startsWith_char, Hm.
  - by rewrite !startsWith_char, Hm, Hp.
  - rewrite !startsWith_cons. destruct (Ascii.eqb "0" a); [|done].
    destruct hex as [|a' hex].
    + change (EmptyString +:+ String c rest) with (String c rest).
      by rewrite !startsWith_char, (proj2 (Ascii.eqb_neq "x" c)),
        (proj2 (Ascii.eqb_neq "X" c)).
    + change (String a' hex +:+ String c rest) with (String a' (hex +:+ String c rest)).
      apply allHex_cons in Hall as [Ha' _]. rewrite !startsWith_char.
      by destruct (hexDigit_not_x a' Ha') as [-> ->].
Qed.

Lemma portOfRow_decoded (h : Host) (inodeSet : gset string) (ports : list string)
    (rawLine : string) (fields : list string) (inode ip text : string) :
  rowFields rawLine = Some fields → fields !! 9%nat = Some inode → inode ∈ inodeSet →
  fields !! 1%nat = Some (ip +:+ String ":" text) → includes ":" ip = false →
  portOfRow h inodeSet ports rawLine
  = pushUnique ports (Number_toString h (JsNumber.parseInt16 text)).
Proof.
  intros Hf Hi Hin Hla Hip. rewrite (portOfRow_matching _ _ _ _ _ _ Hf Hi Hin).
  unfold rowPort, decodePort. by rewrite Hla, afterFirst_app.
Qed.

(** X13. In a row whose inode is in the set, a local address without a
    colon adds nothing to the ports, and a local address whose colon is
    followed by nothing, or by a character that is not a digit of radix 16
    (nor white space nor a sign), adds the port text [NaN]. *)
Theorem malformed_local_address (h : Host) (inodeSet : gset string) (ports : list string)
    (rawLine : string) (fields : list string) (inode : string) :
  rowFields rawLine = Some fields → fields !! 9%nat = Some inode → inode ∈ inodeSet →
  (∀ localAddress, fields !! 1%nat = Some localAddress →
     includes ":" localAddress = false →
     portOfRow h inodeSet ports rawLine = ports)
  ∧ (∀ ip text, fields !! 1%nat = Some (ip +:+ String ":" text) →
       includes ":" ip = false →
       text = EmptyString
       ∨ (∃ c rest, text = String c rest ∧ hexDigitValue c = None
            ∧ isWhiteSpace c = false ∧ c ≠ "-"%char ∧ c ≠ "+"%char) →
       portOfRow h inodeSet ports rawLine = pushUnique ports "NaN").
Proof.
  intros Hf Hi Hin. split.
  - intros la Hla Hno. rewrite (portOfRow_matching _ _ _ _ _ _ Hf Hi Hin).
    unfold rowPort, decodePort. by rewrite Hla, afterFirst_without.
  - intros ip text Hla Hip Htext.
    rewrite (portOfRow_decoded _ _ _ _ _ _ _ _ Hf Hi Hin Hla Hip).
    by rewrite parseInt16_empty_or_other.
Qed.

Lemma malformed_local_address_witness :
  portOfRow Examples.linuxHost {[ "12345" ]} [] (Examples.rowWith "0100007F:") = ["NaN"].
Proof.
  refine (proj2 (malformed_local_address Examples.linuxHost {[ "12345" ]} []
            (Examples.rowWith "0100007F:") _ "12345" _ _ _)
            "0100007F" EmptyString _ eq_refl (or_introl eq_refl)).
  - vm_compute. reflexivity.
  - reflexivity.
  - by apply elem_of_singleton.
  - reflexivity.
Defined.

(** X14. The port text may carry a sign or a [0x] prefix: in a row whose
    inode is in the set, with a port text of hexadecimal digits whose value
    is a safe integer, [-<digits>] adds the decimal writing of the negated
    value (a negative port text), and [+<digits>], [0x<digits>] and
    [0X<digits>] add the same port as the digits alone. *)
Theorem port_text_sign_and_prefix (h : Host) (inodeSet : gset string)
    (ports : list string) (rawLine : string) (fields : list string)
    (inode ip hex : string) :
  rowFields rawLine = Some fields → fields !! 9%nat = Some inode → inode ∈ inodeSet →
  includes ":" ip = false → hexText hex = true → base16 hex < 2 ^ 53 →
  (fields !! 1%nat = Some (ip +:+ String ":" (String "-" hex)) →
   portOfRow h inodeSet ports rawLine
   = pushUnique ports (JsNumber.decimal (- base16 hex)))
  ∧ (∀ text,
       text = String "+" hex ∨ text = String "0" (String "x" hex)
       ∨ text = String "0" (String "X" hex) →
       fields !! 1%nat = Some (ip +:+ String ":" text) →
       portOfRow h inodeSet ports rawLine
       = pushUnique ports (JsNumber.decimal (base16 hex))).
Proof.
  intros Hf Hi Hin Hip Hhex Hlt. pose proof Hhex as [_ Hall]%andb_true_iff.
  pose proof (base16_bound _ Hall) as Hb.
  destruct (parseInt16_signed _ Hhex) as [Hminus Hplus].
  destruct (parseInt16_prefixed _ Hhex) as [Hx HX].
  split.
  - intros Hla. rewrite (portOfRow_decoded _ _ _ _ _ _ _ _ Hf Hi Hin Hla Hip).
    rewrite Hminus, Number_toString_safe; [done|lia].
  - intros text Htext Hla.
    rewrite (portOfRow_decoded _ _ _ _ _ _ _ _ Hf Hi Hin Hla Hip).
    destruct Htext as [->|[->| ->]]; rewrite ?Hplus, ?Hx, ?HX;
      (rewrite Number_toString_safe; [done|lia]).
Qed.

Lemma port_text_sign_and_prefix_witness :
  portOfRow Examples.linuxHost {[ "12345" ]} [] (Examples.rowWith "0100007F:-1F")
  = ["-31"].
Proof.
  refine (proj1 (port_text_sign_and_prefix Examples.linuxHost {[ "12345" ]} []
            (Examples.rowWith "0100007F:-1F") _ "12345" "0100007F" "1F" _ _ _ _ _ _) _).
  - vm_compute. reflexivity.
  - reflexivity.
  - by apply elem_of_singleton.
  - reflexivity.
  - reflexivity.
  - reflexivity.
  - reflexivity.
Defined.

(** X15. What follows the hexadecimal digits of the port text is ignored:
    in a row whose inode is in the set, a port text made of digits (of a
    safe integer) and then of a character that is neither a digit of radix
    16 nor [x] nor [X], with anything after it, adds the port of the digits
    alone. *)
Theorem port_text_trailing_ignored (h : Host) (inodeSet : gset string)
    (ports : list string) (rawLine : string) (fields : list string)
    (inode ip hex : string) (c : ascii) (rest : string) :
  rowFields rawLine = Some fields → fields !! 9%nat = Some inode → inode ∈ inodeSet →
  fields !! 1%nat = Some (ip +:+ String ":" (hex +:+ String c rest)) →
  includes ":" ip = false → hexText hex = true → base16 hex < 2 ^ 53 →
  hexDigitValue c = None → c ≠ "x"%char → c ≠ "X"%char →
  portOfRow h inodeSet ports rawLine
  = pushUnique ports (JsNumber.decimal (base16 hex)).
Proof.
  intros Hf Hi Hin Hla Hip Hhex Hlt Hc Hx HX.
  pose proof Hhex as [_ Hall]%andb_true_iff. pose proof (base16_bound _ Hall) as Hb.
  rewrite (portOfRow_decoded _ _ _ _ _ _ _ _ Hf Hi Hin Hla Hip).
  rewrite parseInt16_trailing by done. rewrite Number_toString_safe; [done|lia].
Qed.

Lemma port_text_trailing_ignored_witness :
  portOfRow Examples.linuxHost {[ "12345" ]} [] (Examples.rowWith "0100007F:1F90:7")
  = ["8080"].
Proof.
  refine (port_text_trailing_ignored Examples.linuxHost {[ "12345" ]} []
            (Examples.rowWith "0100007F:1F90:7") _ "12345" "0100007F" "1F90" ":" "7"
            _ _ _ _ _ _ _ _ _ _).
  - vm_compute. reflexivity.
  - reflexivity.
  - by apply elem_of_singleton.
  - reflexivity.
  - reflexivity.
  - reflexivity.
  - reflexivity.
  - reflexivity.
  - discriminate.
  - discriminate.
Defined.

Lemma hexDigitValue_char (d : Z) :
  0 ≤ d < 16 → hexDigitValue (hexDigitChar d) = Some d.
Proof.
  intros Hd.
  assert (d = 0 ∨ d = 1 ∨ d = 2 ∨ d = 3 ∨ d = 4 ∨ d = 5 ∨ d = 6 ∨ d = 7 ∨ d = 8
          ∨ d = 9 ∨ d = 10 ∨ d = 11 ∨ d = 12 ∨ d = 13 ∨ d = 14 ∨ d = 15) as Hcase by lia.
  repeat (destruct Hcase as [->|Hcase]; [reflexivity|]). by subst.
Qed.

Lemma hex4_spec (n : Z) :
  0 ≤ n ≤ 65535 → hexText (hex4 n) = true ∧ base16 (hex4 n) = n.
Proof.
  intros Hn.
  assert (0 ≤ n / 4096 mod 16 < 16) as H3 by (apply Z.mod_pos_bound; lia).
  assert (0 ≤ n / 256 mod 16 < 16) as H2 by (apply Z.mod_pos_bound; lia).
  assert (0 ≤ n / 16 mod 16 < 16) as H1 by (apply Z.mod_pos_bound; lia).
  assert (0 ≤ n mod 16 < 16) as H0 by (apply Z.mod_pos_bound; lia).
  unfold hexText, hex4. cbn [isEmpty negb andb allHex base16 String.length].
  rewrite !hexDigitValue_char by done. split; [done|].
  cbn [default]. unfold id.
  change (16 ^ Z.of_nat 3) with 4096. change (16 ^ Z.of_nat 2) with 256.
  change (16 ^ Z.of_nat 1) with 16. change (16 ^ Z.of_nat 0) with 1.
  clear H3 H2 H1 H0. Z.div_mod_to_equations. lia.
Qed.

(** X16. Every port is decoded: for each integer [n] of [0, 65535], a row
    whose inode is in the set and whose local address ends with a colon and
    the four upper-case hexadecimal digits of [n], as the kernel prints
    them, adds the decimal writing of [n]. *)
Theorem kernel_port_round_trip (h : Host) (inodeSet : gset string) (ports : list string)
    (rawLine : string) (fields : list string) (inode ip : string) (n : Z) :
  rowFields rawLine = Some fields → fields !! 9%nat = Some inode → inode ∈ inodeSet →
  0 ≤ n ≤ 65535 →
  fields !! 1%nat = Some (ip +:+ String ":" (hex4 n)) → includes ":" ip = false →
  portOfRow h inodeSet ports rawLine = pushUnique ports (JsNumber.decimal n).
Proof.
  intros Hf Hi Hin Hn Hla Hip. destruct (hex4_spec n Hn) as [Hhex Hval].
  rewrite (portOfRow_decoded _ _ _ _ _ _ _ _ Hf Hi Hin Hla Hip).
  rewrite parseInt16_hexText by done. rewrite Hval.
  rewrite Number_toString_safe; [done|lia].
Qed.

Lemma kernel_port_round_trip_witness :
  portOfRow Examples.linuxHost {[ "12345" ]} [] Examples.row8080 = ["8080"].
Proof.
  refine (kernel_port_round_trip Examples.linuxHost {[ "12345" ]} []
            Examples.row8080 _ "12345" "0100007F" 8080 _ _ _ _ _ _).
  - vm_compute. reflexivity.
  - reflexivity.
  - by apply elem_of_singleton.
  - lia.
  - reflexivity.
  - reflexivity.
Defined.

(** ** Further properties of the Windows branch *)

Lemma isEmpty_trimStart (s : string) : isEmpty (trimStart s) = blank s.
Proof.
  induction s as [|c s IH]; [done|]. simpl. by destruct (isWhiteSpace c).
Qed.

Lemma isEmpty_trimEnd (s : string) : isEmpty (trimEnd s) = blank s.
Proof.
  induction s as [|c s IH]; [done|]. simpl. rewrite <- IH.
  by destruct (isWhiteSpace c), (isEmpty (trimEnd s)).
Qed.

Lemma blank_trimStart (s : string) : blank (trimStart s) = blank s.
Proof.
  induction s as [|c s IH]; [done|]. simpl.
  destruct (isWhiteSpace c) eqn:Hc; [done|]. simpl. by rewrite Hc.
Qed.

Lemma blank_trimEnd (s : string) : blank (trimEnd s) = blank s.
Proof.
  induction s as [|c s IH]; [done|]. simpl.
  destruct (isWhiteSpace c && isEmpty (trimEnd s)) eqn:Hw.
  - apply andb_true_iff in Hw as [-> He]. by rewrite isEmpty_trimEnd in He.
  - simpl. by rewrite IH.
Qed.

(** The trimmed text is empty exactly when the text is white space. *)
Lemma isEmpty_trim (s : string) : isEmpty (trim s) = blank s.
Proof. unfold trim. by rewrite isEmpty_trimEnd, blank_trimStart. Qed.

Lemma blank_trim (s : string) : blank (trim s) = blank s.
Proof. unfold trim. by rewrite blank_trimEnd, blank_trimStart. Qed.

Lemma trimStart_inked (s : string) : blank s = false → ∃ c r, trimStart s = String c r
  ∧ isWhiteSpace c = false.
Proof.
  induction s as [|c s IH]; [done|]. simpl.
  destruct (isWhiteSpace c) eqn:Hc; [done|]. intros _. by exists c, s.
Qed.

Lemma trimEnd_idempotent (s : string) : trimEnd (trimEnd s) = trimEnd s.
Proof.
  induction s as [|c s IH]; [done|]. simpl.
  destruct (isWhiteSpace c && isEmpty (trimEnd s)) eqn:Hw; [done|].
  simpl. by rewrite IH, Hw.
Qed.

(** [trim] leaves a trimmed text as it is. *)
Lemma trim_idempotent (s : string) : trim (trim s) = trim s.
Proof.
  unfold trim. destruct (blank s) eqn:Hb.
  - pose proof (isEmpty_trimStart s) as He. rewrite Hb in He.
    by destruct (trimStart s).
  - destruct (trimStart_inked s Hb) as (c & r & -> & Hc).
    assert (trimStart (trimEnd (String c r)) = trimEnd (String c r)) as ->.
    { simpl. rewrite Hc. simpl. by rewrite Hc. }
    apply trimEnd_idempotent.
Qed.

(** A text with a character that is not white space has a line with one. *)
Lemma blank_split (s : string) :
  blank s = false → ∃ line, line ∈ split newline s ∧ blank line = false.
Proof.
  induction s as [|c s IH]; [done|]. simpl.
  destruct (Ascii.eqb_spec c newline) as [->|Hne].
  - intros Hs. destruct (IH Hs) as (line & Hin & Hl). exists line. split; [by right|done].
  - pose proof (split_nonempty newline s) as Hnil.
    destruct (split newline s) as [|first others]; [done|]. simpl.
    destruct (isWhiteSpace c) eqn:Hc; simpl.
    + intros Hs. destruct (IH Hs) as (line & Hin & Hl).
      apply elem_of_cons in Hin as [->|Hin].
      * exists (String c first). split; [left|]. simpl. by rewrite Hc.
      * exists line. split; [by right|done].
    + intros _. exists (String c first). split; [left|]. simpl. by rewrite Hc.
Qed.

Lemma filter_map_trim (lines : list string) :
  List.filter (λ line, negb (isEmpty line)) (map trim lines)
  = map trim (List.filter (λ line, negb (blank line)) lines).
Proof.
  induction lines as [|l lines IH]; [done|]. simpl.
  rewrite isEmpty_trim, IH. by destruct (blank l).
Qed.

(** X17. On Windows, with a valid pid and a command that succeeds, the
    call returns [null] exactly when the output is white space only: an
    output with any other character gives at least one port. *)
Theorem win32_null_iff_blank (h : Host) (pid : number) :
  validPid pid → platform h = "win32" →
  error (exec h (win32Command h pid)) = None →
  outcome (findPortByPid h pid) = Fulfilled None
  ↔ blank (stdout (exec h (win32Command h pid))) = true.
Proof.
  intros Hv Hp He. rewrite findPortByPid_win32 by done. unfold outcome. simpl.
  unfold win32Callback. rewrite He.
  pose proof (isEmpty_trim (stdout (exec h (win32Command h pid)))) as Ht.
  destruct (isEmpty (trim _)) eqn:Hempty; [by rewrite <- Ht|].
  rewrite <- Ht. split; [|done]. intros [= Ho]. exfalso.
  assert (blank (trim (stdout (exec h (win32Command h pid)))) = false) as Hb.
  { by rewrite blank_trim, <- Ht. }
  destruct (blank_split _ Hb) as (line & Hin & Hl).
  rewrite filter_map_trim in Ho.
  assert (trim line ∈ map trim (List.filter (λ line, negb (blank line))
            (split newline (trim (stdout (exec h (win32Command h pid))))))) as Hport.
  { apply list_elem_of_fmap. exists line. split; [done|].
    apply list_elem_of_In, filter_In. rewrite <- list_elem_of_In. by rewrite Hl. }
  destruct (map trim _); [by apply elem_of_nil in Hport|done].
Qed.

Lemma win32_null_iff_blank_witness :
  outcome (findPortByPid Examples.win32Blank Examples.pid42) = Fulfilled None.
Proof.
  exact (proj2 (win32_null_iff_blank Examples.win32Blank Examples.pid42
                  validPid_42 eq_refl eq_refl) eq_refl).
Defined.

(** X18. On Windows, with a valid pid, the ports of a result are the lines
    of the trimmed output that are not white space only, each trimmed, in
    the order of the output and as often as the output shows them; no port
    keeps white space at its ends, so the carriage return of a line end
    never stays. *)
Theorem win32_ports_are_trimmed_lines (h : Host) (pid : number) (ports : list string) :
  validPid pid → platform h = "win32" →
  outcome (findPortByPid h pid) = Fulfilled (Some ports) →
  ports = map trim (List.filter (λ line, negb (blank line))
            (split newline (trim (stdout (exec h (win32Command h pid))))))
  ∧ ∀ port, port ∈ ports → trim port = port.
Proof.
  intros Hv Hp. rewrite findPortByPid_win32 by done. unfold outcome. simpl.
  unfold win32Callback. destruct (error _); [done|].
  destruct (isEmpty (trim _)); [done|]. intros [= Ho].
  apply orNull_Some in Ho as [-> _]. rewrite filter_map_trim. split; [done|].
  intros port (line & -> & _)%list_elem_of_fmap. apply trim_idempotent.
Qed.

Lemma win32_ports_are_trimmed_lines_witness :
  ["3000"; "3000"]
  = map trim (List.filter (λ line, negb (blank line))
      (split newline (trim (stdout (exec Examples.win32Twice
         (win32Command Examples.win32Twice Examples.pid42))))))
  ∧ ∀ port, port ∈ ["3000"; "3000"] → trim port = port.
Proof.
  refine (win32_ports_are_trimmed_lines Examples.win32Twice Examples.pid42
            ["3000"; "3000"] validPid_42 eq_refl _).
  vm_compute. reflexivity.
Defined.
